(** * webrtc-share: the signalling relay of [server.py]

    A shallow embedding of the connection registry and of the per-connection
    read loop of [websocket_endpoint], together with the start-up check of
    the [__main__] block, and the properties of the relay stated over them.

    The two module-level dictionaries are finite maps keyed by the peer
    identifier.  A [WebSocket] object is represented by its identity.  Every
    coroutine of [websocket_endpoint] runs without interruption between two
    suspension points, so the relay is a transition system whose steps are:
    a connection is accepted and registered, a suspended [receive_text]
    returns or raises in one connection and that connection's loop turns
    once, or the remote end of a channel goes away.  What the coroutine
    prints is not part of the state; that a [print] can raise is. *)

From stdpp Require Import gmap strings list fin_maps.

Open Scope string_scope.
Set Warnings "-register-all".

(** ** Python values *)

(** The values [json.loads] produces and [json.dumps] accepts.  A
    dictionary is the list of its items in insertion order; the keys of a
    dictionary are pairwise distinct.  A [string] is well-formed text, as a
    literal or a path parameter is; a [str] that is not, because a
    surrogate code point stands in it (what [json.loads] makes of an escape
    such as [\ud800]), is given by the code points before that surrogate,
    the surrogate as U+D800 plus [offset] modulo 2048, and the code points
    after it. *)
Inductive value : Type :=
| PyNone
| PyBool (b : bool)
| PyInt (n : Z)
| PyFloat (repr : string)
| PyStr (s : string)
| PyStrSurrogate (before : list N) (offset : N) (after : list N)
| PyList (elems : list value)
| PyDict (items : list (string * value)).

(** [d.get(key)]: the value stored under [key], [None] when there is none. *)
Fixpoint dict_get (items : list (string * value)) (key : string) : value :=
  match items with
  | [] => PyNone
  | (k, v) :: rest => if decide (k = key) then v else dict_get rest key
  end.

(** [v == "literal"]: only a [str] equals a [str], and a [str] with a
    surrogate equals no literal. *)
Definition eq_str (v : value) (literal : string) : bool :=
  match v with
  | PyStr s => bool_decide (s = literal)
  | _ => false
  end.

(** Lists and dictionaries are the unhashable values among those of
    [json.loads]. *)
Definition hashable (v : value) : bool :=
  match v with
  | PyList _ | PyDict _ => false
  | _ => true
  end.

(** ** The shared state *)

(** The identity of a [WebSocket] object. *)
Abbreviation WebSocket := nat (only parsing).

(** A value of [peer_registry]: [{"ws": ..., "connected_to": ...}]. *)
Record peer_info : Type := PeerInfo {
  ws : WebSocket;
  connected_to : option string
}.

(** The two states of a connection's coroutine: suspended in the read loop,
    or returned. *)
Inductive conn_state : Type := OPEN | CLOSED.

Record state : Type := State {
  (** [active_connections: Dict[str, WebSocket]] *)
  active_connections : gmap string WebSocket;
  (** [peer_registry: Dict[str, Dict]] *)
  peer_registry : gmap string peer_info;
  (** the coroutines of [websocket_endpoint], by their [websocket]
      argument, with their [peer_id] argument *)
  handlers : gmap WebSocket (string * conn_state);
  (** the channels whose remote end is gone: [send_text] raises on them *)
  broken : gset WebSocket;
  (** the frames written by [send_text], oldest first, each with the
      channel it was written to (the argument of [json.dumps], not its
      text) *)
  wire : list (WebSocket * value)
}.

Definition init : state :=
  {| active_connections := ∅; peer_registry := ∅; handlers := ∅;
     broken := ∅; wire := [] |}.

Definition set_active_connections (f : gmap string WebSocket → gmap string WebSocket)
    (st : state) : state :=
  {| active_connections := f (active_connections st);
     peer_registry := peer_registry st; handlers := handlers st;
     broken := broken st; wire := wire st |}.

Definition set_peer_registry (f : gmap string peer_info → gmap string peer_info)
    (st : state) : state :=
  {| active_connections := active_connections st;
     peer_registry := f (peer_registry st); handlers := handlers st;
     broken := broken st; wire := wire st |}.

Definition set_handlers
    (f : gmap WebSocket (string * conn_state) → gmap WebSocket (string * conn_state))
    (st : state) : state :=
  {| active_connections := active_connections st;
     peer_registry := peer_registry st; handlers := f (handlers st);
     broken := broken st; wire := wire st |}.

Definition set_broken (f : gset WebSocket → gset WebSocket) (st : state) : state :=
  {| active_connections := active_connections st;
     peer_registry := peer_registry st; handlers := handlers st;
     broken := f (broken st); wire := wire st |}.

Definition set_wire (f : list (WebSocket * value) → list (WebSocket * value))
    (st : state) : state :=
  {| active_connections := active_connections st;
     peer_registry := peer_registry st; handlers := handlers st;
     broken := broken st; wire := f (wire st) |}.

(** The frames written to one channel, oldest first. *)
Definition outbox (w : WebSocket) (st : state) : list value :=
  omap (λ f, if decide (f.1 = w) then Some f.2 else None) (wire st).

(** ** Exceptions and the monad of the loop body *)

(** What a statement of the loop can raise.  [websocket_endpoint] tells
    [WebSocketDisconnect] from every other [Exception] only in what it
    prints. *)
Inductive exn : Type :=
| WebSocketDisconnect
| Exception (name : string).

Inductive result (A : Type) : Type :=
| Return (a : A) (st : state)
| Raise (e : exn) (st : state).
Arguments Return {A} a st.
Arguments Raise {A} e st.

Definition M (A : Type) : Type := state → result A.

#[global] Instance M_ret : MRet M := λ A a st, Return a st.
#[global] Instance M_bind : MBind M := λ A B k m st,
  match m st with
  | Return a st' => k a st'
  | Raise e st' => Raise e st'
  end.

Definition raise {A : Type} (e : exn) : M A := λ st, Raise e st.

(** What the suspended [await websocket.receive_text()] resumes with: it
    raises, or it returns the text of a frame.  The text is represented by
    what [json.loads] makes of it: a value, or nothing when [json.loads]
    raises [JSONDecodeError]. *)
Inductive received : Type :=
| Raises (e : exn)
| Text (loaded : option value).

Definition receive_text (r : received) : M (option value) :=
  match r with
  | Raises e => raise e
  | Text data => mret data
  end.

Definition json_loads (data : option value) : M value :=
  match data with
  | Some v => mret v
  | None => raise (Exception "JSONDecodeError")
  end.

(** [message.get(key)]: only a dictionary has the method. *)
Definition get (message : value) (key : string) : M value :=
  match message with
  | PyDict items => mret (dict_get items key)
  | _ => raise (Exception "AttributeError")
  end.

(** [target_peer in active_connections]: hashes [target_peer] first; the
    keys are all [str]. *)
Definition contains (target_peer : value) : M bool := λ st,
  match target_peer with
  | PyStr s => Return (bool_decide (is_Some (active_connections st !! s))) st
  | PyList _ | PyDict _ => Raise (Exception "TypeError") st
  | _ => Return false st
  end.

(** [active_connections[target_peer]] *)
Definition getitem (target_peer : value) : M WebSocket := λ st,
  match target_peer with
  | PyStr s =>
      match active_connections st !! s with
      | Some w => Return w st
      | None => Raise (Exception "KeyError") st
      end
  | PyList _ | PyDict _ => Raise (Exception "TypeError") st
  | _ => Raise (Exception "KeyError") st
  end.

(** [await w.send_text(json.dumps(msg))]: the frame is written, or the
    write raises when the remote end of [w] is gone. *)
Definition send_text (w : WebSocket) (msg : value) : M unit := λ st,
  if decide (w ∈ broken st) then Raise (Exception "send_text") st
  else Return () (set_wire (λ l, (l ++ [(w, msg)])%list) st).

(** A value whose text the standard output takes: every value but a
    [str] with a surrogate (the text of a list or of a dictionary shows its
    strings escaped). *)
Definition encodable (v : value) : bool :=
  match v with
  | PyStrSurrogate _ _ _ => false
  | _ => true
  end.

(** [print(f"...")], given the pieces of the formatted string: it raises
    when one of them cannot be encoded, and otherwise leaves the state as
    it is. *)
Definition print (pieces : list value) : M unit := λ st,
  if forallb encodable pieces then Return () st
  else Raise (Exception "UnicodeEncodeError") st.

(** ** The coroutine [websocket_endpoint] *)

(** Lines 39-44, after [await websocket.accept()] has returned:
    both dictionaries are assigned at key [peer_id]. *)
Definition register_peer (websocket : WebSocket) (peer_id : string) (st : state) : state :=
  set_peer_registry
    (λ reg, <[peer_id := {| ws := websocket; connected_to := None |}]> reg)
    (set_active_connections (λ ac, <[peer_id := websocket]> ac) st).

(** One turn of [while True] (lines 50-134), resumed with what
    [receive_text] gives, with the [print] of each branch where the source
    has it. *)
Definition loop_body (websocket : WebSocket) (peer_id : string) (r : received) : M unit :=
  data ← receive_text r;
  message ← json_loads data;
  message_type ← get message "type";
  target_peer ← get message "target";
  if eq_str message_type "register" then
    send_text websocket
      (PyDict [("type", PyStr "registered"); ("peer_id", PyStr peer_id)]);;
    print [PyStr "Peer "; PyStr peer_id; PyStr " registered"]
  else if eq_str message_type "connect" then
    found ← contains target_peer;
    if found : bool then
      target_ws ← getitem target_peer;
      send_text target_ws
        (PyDict [("type", PyStr "connection-request"); ("from", PyStr peer_id)]);;
      print [PyStr "Forwarded connection request from "; PyStr peer_id;
             PyStr " to "; target_peer]
    else
      send_text websocket
        (PyDict [("type", PyStr "peer-unavailable"); ("target", target_peer)]);;
      print [PyStr "Peer "; target_peer; PyStr " not found"]
  else if eq_str message_type "offer" then
    found ← contains target_peer;
    if found : bool then
      target_ws ← getitem target_peer;
      offer ← get message "offer";
      send_text target_ws
        (PyDict [("type", PyStr "offer"); ("from", PyStr peer_id); ("offer", offer)]);;
      print [PyStr "Forwarded offer from "; PyStr peer_id; PyStr " to "; target_peer]
    else
      send_text websocket
        (PyDict [("type", PyStr "peer-unavailable"); ("target", target_peer)])
  else if eq_str message_type "answer" then
    found ← contains target_peer;
    if found : bool then
      target_ws ← getitem target_peer;
      answer ← get message "answer";
      send_text target_ws
        (PyDict [("type", PyStr "answer"); ("from", PyStr peer_id); ("answer", answer)]);;
      print [PyStr "Forwarded answer from "; PyStr peer_id; PyStr " to "; target_peer]
    else
      send_text websocket
        (PyDict [("type", PyStr "peer-unavailable"); ("target", target_peer)])
  else if eq_str message_type "ice-candidate" then
    found ← contains target_peer;
    if found : bool then
      target_ws ← getitem target_peer;
      candidate ← get message "candidate";
      send_text target_ws
        (PyDict [("type", PyStr "ice-candidate"); ("from", PyStr peer_id); ("candidate", candidate)])
    else
      send_text websocket
        (PyDict [("type", PyStr "peer-unavailable"); ("target", target_peer)])
  else if eq_str message_type "disconnect" then
    found ← contains target_peer;
    if found : bool then
      target_ws ← getitem target_peer;
      send_text target_ws
        (PyDict [("type", PyStr "peer-disconnected"); ("from", PyStr peer_id)])
    else mret ()
  else mret ().

(** The [finally] block, lines 142-145. *)
Definition cleanup (peer_id : string) (st : state) : state :=
  let st1 :=
    if bool_decide (is_Some (active_connections st !! peer_id))
    then set_active_connections (delete peer_id) st else st in
  if bool_decide (is_Some (peer_registry st1 !! peer_id))
  then set_peer_registry (delete peer_id) st1 else st1.

(** Lines 37-46: the connection is accepted, the peer is registered and the
    coroutine reaches its first [receive_text].  The [print] of line 46
    formats the path parameter only, which is well-formed text. *)
Definition websocket_endpoint_accept (websocket : WebSocket) (peer_id : string)
    (st : state) : state :=
  set_handlers (<[websocket := (peer_id, OPEN)]>) (register_peer websocket peer_id st).

(** Lines 48-146, one resumption: the loop turns once and suspends in
    [receive_text] again; when the body raises, either [except] clause only
    prints, the [finally] block runs, whatever that [print] does, and the
    coroutine is over. *)
Definition websocket_endpoint_resume (websocket : WebSocket) (peer_id : string)
    (r : received) (st : state) : state :=
  match loop_body websocket peer_id r st with
  | Return _ st' => st'
  | Raise _ st' => set_handlers (<[websocket := (peer_id, CLOSED)]>) (cleanup peer_id st')
  end.

(** ** The relay as a transition system *)

Inductive event : Type :=
| Connect (websocket : WebSocket) (peer_id : string)
    (** a client opens [/ws/{peer_id}]; [websocket] is a new object *)
| Receive (websocket : WebSocket) (r : received)
    (** the [receive_text] of the coroutine of [websocket] resumes *)
| Hangup (websocket : WebSocket).
    (** the remote end of [websocket] goes away *)

(** An event that cannot happen (a [WebSocket] object handed to two
    coroutines, a resumption of a coroutine that does not wait) has no
    successor state. *)
Definition step (st : state) (e : event) : option state :=
  match e with
  | Connect websocket peer_id =>
      match handlers st !! websocket with
      | None => Some (websocket_endpoint_accept websocket peer_id st)
      | Some _ => None
      end
  | Receive websocket r =>
      match handlers st !! websocket with
      | Some (peer_id, OPEN) => Some (websocket_endpoint_resume websocket peer_id r st)
      | _ => None
      end
  | Hangup websocket => Some (set_broken (λ b, {[websocket]} ∪ b) st)
  end.

Fixpoint run (st : state) (evs : list event) : option state :=
  match evs with
  | [] => Some st
  | e :: rest => st' ← step st e; run st' rest
  end.

Definition reachable (st : state) : Prop := ∃ evs, run init evs = Some st.

(** ** Start-up: the [__main__] block *)

(** [BASE_DIR / name] *)
Definition path_join (base name : string) : string := base ++ "/" ++ name.

Inductive startup : Type :=
| Exit (code : Z) (printed : list string)
| UvicornRun (host : string) (port : Z) (ssl_keyfile ssl_certfile : string).

(** Lines 152-170, over the set of the paths that exist. *)
Definition main (BASE_DIR : string) (files : gset string) : startup :=
  let ssl_keyfile := path_join BASE_DIR "cert.key" in
  let ssl_certfile := path_join BASE_DIR "cert.crt" in
  if negb (bool_decide (ssl_keyfile ∈ files)) || negb (bool_decide (ssl_certfile ∈ files))
  then Exit 1 ["SSL certificates not found!";
               "Please run: python generate_cert.py";
               "Or provide your own certificates:";
               "  - " ++ ssl_keyfile;
               "  - " ++ ssl_certfile]
  else UvicornRun "0.0.0.0" 10500 ssl_keyfile ssl_certfile.

(** ** Vocabulary of the properties *)

(** The state a computation ends in, returned or raised. *)
Definition state_of {A : Type} (r : result A) : state :=
  match r with
  | Return _ st => st
  | Raise _ st => st
  end.

(** The coroutine leaves its loop: the body raises. *)
Definition closes (websocket : WebSocket) (peer_id : string) (r : received)
    (st : state) : Prop :=
  ∃ e st', loop_body websocket peer_id r st = Raise e st'.

(** [st] with the frames [new] written after those already on the wire. *)
Definition written (new : list (WebSocket * value)) (st : state) : state :=
  set_wire (λ l, (l ++ new)%list) st.

(** The three types that carry a payload, and the key of the payload. *)
Definition signalling_type (t : value) : bool :=
  eq_str t "offer" || eq_str t "answer" || eq_str t "ice-candidate".

Definition payload_field (t : value) : string :=
  if eq_str t "offer" then "offer"
  else if eq_str t "answer" then "answer"
  else "candidate".

(** The four types answered with [peer-unavailable] when the target is
    absent. *)
Definition answered_type (t : value) : bool :=
  eq_str t "connect" || signalling_type t.

(** The five types that name a target. *)
Definition directed_type (t : value) : bool :=
  answered_type t || eq_str t "disconnect".

(** The envelope a signalling message of [peer_id] is forwarded as. *)
Definition forwarded (peer_id : string) (message : value) : value :=
  match message with
  | PyDict items =>
      let t := dict_get items "type" in
      PyDict [("type", t); ("from", PyStr peer_id);
              (payload_field t, dict_get items (payload_field t))]
  | _ => PyNone
  end.

Definition registered_reply (peer_id : string) : value :=
  PyDict [("type", PyStr "registered"); ("peer_id", PyStr peer_id)].

Definition peer_unavailable (target : value) : value :=
  PyDict [("type", PyStr "peer-unavailable"); ("target", target)].

(** [target] is a key of [active_connections]. *)
Definition is_registered (st : state) (target : value) : Prop :=
  ∃ s, target = PyStr s ∧ is_Some (active_connections st !! s).

(** The value of the [from] key of an envelope that has one. *)
Definition from_tag (frame : value) : option value :=
  match frame with
  | PyDict items =>
      if bool_decide ("from" ∈ items.*1) then Some (dict_get items "from") else None
  | _ => None
  end.

(** The keys the loop body reads in a message of the given type. *)
Definition fields_read (message_type : value) : list string :=
  "type" :: "target" ::
  (if eq_str message_type "offer" then ["offer"]
   else if eq_str message_type "answer" then ["answer"]
   else if eq_str message_type "ice-candidate" then ["candidate"]
   else []).

Definition agree_on (keys : list string) (m1 m2 : list (string * value)) : Prop :=
  Forall (λ k, dict_get m1 k = dict_get m2 k) keys.

(** [d[key] = v] on a dictionary: the item is replaced in place, or added
    at the end. *)
Fixpoint dict_set (items : list (string * value)) (key : string) (v : value)
    : list (string * value) :=
  match items with
  | [] => [(key, v)]
  | (k, x) :: rest =>
      if decide (k = key) then (k, v) :: rest else (k, x) :: dict_set rest key v
  end.

(** [message.get(key)] on a value known to be a dictionary. *)
Definition field (message : value) (key : string) : value :=
  match message with
  | PyDict items => dict_get items key
  | _ => PyNone
  end.

(** An [offer], [answer] or [ice-candidate] envelope addressed to [target]. *)
Definition signalling_to (target : string) (message : value) : Prop :=
  ∃ items, message = PyDict items ∧
    signalling_type (dict_get items "type") = true ∧
    dict_get items "target" = PyStr target.

(** The text frames [msgs] arriving one after the other on [websocket]. *)
Definition sends (websocket : WebSocket) (msgs : list value) : list event :=
  map (λ m, Receive websocket (Text (Some m))) msgs.

(** A computation changes the state only by writing frames, each of which
    satisfies [P]. *)
Definition writes {A : Type} (P : WebSocket * value → Prop) (m : M A) : Prop :=
  ∀ st, ∃ new, state_of (m st) = written new st ∧ Forall P new.

(** A frame written by the coroutine of [websocket] and [peer_id] is an
    envelope with [peer_id] under its [from] key, or a reply without a
    [from] key on the channel of the coroutine itself. *)
Definition tagged (websocket : WebSocket) (peer_id : string)
    (frame : WebSocket * value) : Prop :=
  from_tag frame.2 = Some (PyStr peer_id) ∨
  (frame.1 = websocket ∧ from_tag frame.2 = None).

(** No entry of [peer_registry] names a partner. *)
Definition no_partner (st : state) : Prop :=
  map_Forall (λ _ info, connected_to info = None) (peer_registry st).

(** The two dictionaries hold the same channels under the same keys, and a
    registered channel belongs to a coroutine of that peer that waits in its
    loop. *)
Definition consistent (st : state) : Prop :=
  (∀ p, peer_registry st !! p =
        (λ w, {| ws := w; connected_to := None |}) <$> active_connections st !! p) ∧
  (∀ p w, active_connections st !! p = Some w → handlers st !! w = Some (p, OPEN)).

(** Two states that differ at most in the values stored in
    [peer_registry], not in its keys. *)
Definition same_but_registry_values (st1 st2 : state) : Prop :=
  active_connections st1 = active_connections st2 ∧
  handlers st1 = handlers st2 ∧
  broken st1 = broken st2 ∧
  wire st1 = wire st2 ∧
  dom (peer_registry st1) = dom (peer_registry st2).

Definition result_agree {A : Type} (r1 r2 : result A) : Prop :=
  match r1, r2 with
  | Return a1 st1, Return a2 st2 => a1 = a2 ∧ same_but_registry_values st1 st2
  | Raise e1 st1, Raise e2 st2 => e1 = e2 ∧ same_but_registry_values st1 st2
  | _, _ => False
  end.

(** A computation that does not look at the values of [peer_registry]. *)
Definition blind {A : Type} (m : M A) : Prop :=
  ∀ st1 st2, same_but_registry_values st1 st2 → result_agree (m st1) (m st2).

(** The messages and the run of the scenario of the specification. *)
Definition msg_register : value := PyDict [("type", PyStr "register")].
Definition msg_connect_bob : value :=
  PyDict [("type", PyStr "connect"); ("target", PyStr "bob")].
Definition msg_offer_bob : value :=
  PyDict [("type", PyStr "offer"); ("target", PyStr "bob");
          ("offer", PyDict [("sdp", PyStr "X")])].
Definition msg_candidate_bob : value :=
  PyDict [("type", PyStr "ice-candidate"); ("target", PyStr "bob");
          ("candidate", PyDict [])].
Definition msg_disconnect_bob : value :=
  PyDict [("type", PyStr "disconnect"); ("target", PyStr "bob")].

Definition scenario : list event :=
  [ Connect 1 "alice"; Receive 1 (Text (Some msg_register));
    Connect 2 "bob"; Receive 1 (Text (Some msg_connect_bob));
    Receive 1 (Text (Some msg_offer_bob));
    Receive 2 (Raises WebSocketDisconnect);
    Receive 1 (Text (Some msg_candidate_bob)) ].

(** Alice and Bob both connected, nothing sent yet. *)
Definition two_peers : state :=
  websocket_endpoint_accept 2 "bob" (websocket_endpoint_accept 1 "alice" init).

(** Alice connected alone. *)
Definition alice_alone : state := websocket_endpoint_accept 1 "alice" init.

(** ** The index page: [serve_index] *)

Inductive response : Type :=
| FileResponse (path : string) (media_type : string)
| HTMLResponse (content : string) (status_code : Z).

(** Lines 26-32, over the set of the paths that exist. *)
Definition serve_index (BASE_DIR : string) (files : gset string) : response :=
  let html_path := path_join BASE_DIR "index-local.html" in
  if bool_decide (html_path ∈ files)
  then FileResponse html_path "text/html"
  else HTMLResponse "<h1>index.html not found</h1>" 404.

(** ** [generate_cert.py] *)

(** The key of [rsa.generate_private_key]: its two parameters and the
    random material that tells one generated key from another. *)
Record private_key : Type := RSAPrivateKey {
  public_exponent : Z;
  key_size : Z;
  material : nat
}.

(** [private_key.public_key()] *)
Inductive public_key : Type :=
| RSAPublicKey (exponent size : Z) (material : nat).

Definition public_key_of (k : private_key) : public_key :=
  RSAPublicKey (public_exponent k) (key_size k) (material k).

(** The entries of [x509.SubjectAlternativeName]. *)
Inductive general_name : Type :=
| DNSName (name : string)
| IPAddress (address : string).

(** The certificate that [sign] returns: what [x509.CertificateBuilder]
    was given, and the key and hash it is signed with.  A [datetime] is a
    number of microseconds; the two dates of a certificate are in whole
    seconds. *)
Record certificate : Type := Certificate {
  subject_name : list (string * string);
  issuer_name : list (string * string);
  cert_public_key : public_key;
  serial_number : Z;
  not_valid_before : Z;
  not_valid_after : Z;
  subject_alternative_name : list general_name;
  extension_critical : bool;
  signed_with : private_key;
  signature_hash : string
}.

(** [timedelta(days=365)] *)
Definition days_365 : Z := 365 * 86400 * 1000000.

(** A [datetime] as a certificate keeps it: without its microseconds. *)
Definition whole_seconds (t : Z) : Z := (t / 1000000 * 1000000)%Z.

(** Lines 19-52: the key and the certificate, from what the environment
    supplies: the random material of the key, the random serial number and
    the two readings of [datetime.utcnow()]. *)
Definition build_certificate (key_material : nat) (serial : Z) (now1 now2 : Z)
    : private_key * certificate :=
  let private_key :=
    {| public_exponent := 65537; key_size := 2048; material := key_material |} in
  let subject :=
    [("COUNTRY_NAME", "US"); ("STATE_OR_PROVINCE_NAME", "Local");
     ("LOCALITY_NAME", "Local"); ("ORGANIZATION_NAME", "WebRTC Share");
     ("COMMON_NAME", "localhost")] in
  let issuer := subject in
  (private_key,
   {| subject_name := subject;
      issuer_name := issuer;
      cert_public_key := public_key_of private_key;
      serial_number := serial;
      not_valid_before := whole_seconds now1;
      not_valid_after := whole_seconds (now2 + days_365);
      subject_alternative_name :=
        [DNSName "localhost"; DNSName "127.0.0.1"; IPAddress "127.0.0.1"];
      extension_critical := false;
      signed_with := private_key;
      signature_hash := "SHA256" |}).

(** How [generate_self_signed_cert] ends: it returns, or an [open] raises;
    either way with the files as they are then and the lines printed. *)
Inductive generated : Type :=
| Generated (fs : gmap string string) (printed : list string)
| OpenFailed (path : string) (fs : gmap string string) (printed : list string).

Section GenerateCert.
Context (private_bytes : private_key → string).
Context (public_bytes : certificate → string).

(** Lines 14-72, over the files (path to contents) and the set of the
    paths that cannot be opened for writing.  The two PEM encodings are
    those of the library. *)
Definition generate_self_signed_cert (BASE_DIR : string)
    (key_material : nat) (serial : Z) (now1 now2 : Z)
    (locked : gset string) (fs : gmap string string) : generated :=
  let '(private_key, cert) := build_certificate key_material serial now1 now2 in
  let key_path := path_join BASE_DIR "cert.key" in
  if bool_decide (key_path ∈ locked) then OpenFailed key_path fs []
  else
    let fs1 := <[key_path := private_bytes private_key]> fs in
    let printed1 := ["✓ Generated private key: " ++ key_path] in
    let cert_path := path_join BASE_DIR "cert.crt" in
    if bool_decide (cert_path ∈ locked) then OpenFailed cert_path fs1 printed1
    else
      let printed2 :=
        ["✓ Generated certificate: " ++ cert_path;
         String (Ascii.ascii_of_nat 10)
           "⚠️  This is a self-signed certificate for development only.";
         "   Your browser will show a security warning - this is normal.";
         "   Access the server at: https://localhost:10500"] in
      Generated (<[cert_path := public_bytes cert]> fs1) (app printed1 printed2).

(** The files after [generate_self_signed_cert], however it ends. *)
Definition files_after (g : generated) : gmap string string :=
  match g with
  | Generated fs _ => fs
  | OpenFailed _ fs _ => fs
  end.
End GenerateCert.

(** ** More vocabulary *)

(** The six literals the loop compares the type with. *)
Definition known_types : list string :=
  ["register"; "connect"; "offer"; "answer"; "ice-candidate"; "disconnect"].

(** The two-key envelope of [connect] and [disconnect]. *)
Definition notification (kind peer_id : string) : value :=
  PyDict [("type", PyStr kind); ("from", PyStr peer_id)].

(** What one turn of the loop comes to.  It writes at most one frame.  When
    it raises, nothing was written, but for one case: the reply to a
    [connect] whose target is not registered is written before the target
    is printed, and that [print] raises on a target that cannot be
    encoded. *)
Definition turn_outcome (w : WebSocket) (r : received) (st : state)
    (res : result unit) : Prop :=
  match res with
  | Return _ st' => ∃ new, st' = written new st ∧ (List.length new ≤ 1)%nat
  | Raise _ st' =>
      st' = st ∨
      ∃ items, r = Text (Some (PyDict items)) ∧
        dict_get items "type" = PyStr "connect" ∧
        encodable (dict_get items "target") = false ∧
        st' = written [(w, peer_unavailable (dict_get items "target"))] st
  end.

(** A second connection of Alice, after her first. *)
Definition alice_twice : state := websocket_endpoint_accept 2 "alice" alice_alone.

(** * Properties *)

(** ** The scenario of the specification, evaluated *)

Example scenario_wire :
  wire <$> run init scenario =
  Some [ (1, PyDict [("type", PyStr "registered"); ("peer_id", PyStr "alice")]);
         (2, PyDict [("type", PyStr "connection-request"); ("from", PyStr "alice")]);
         (2, PyDict [("type", PyStr "offer"); ("from", PyStr "alice");
                     ("offer", PyDict [("sdp", PyStr "X")])]);
         (1, PyDict [("type", PyStr "peer-unavailable"); ("target", PyStr "bob")]) ].
Proof. vm_compute. reflexivity. Qed.

(** ** Dictionaries and comparisons *)

Lemma dict_get_missing (items : list (string * value)) (key : string) :
  key ∉ items.*1 → dict_get items key = PyNone.
Proof.
  induction items as [|[k v] rest IH]; simpl; [done|].
  intros Hnot. apply not_elem_of_cons in Hnot as [Hne Hrest].
  destruct (decide (k = key)); [congruence | auto].
Qed.

Lemma dict_get_set_ne (items : list (string * value)) (key k : string) (v : value) :
  key ≠ k → dict_get (dict_set items key v) k = dict_get items k.
Proof.
  intros Hne. induction items as [|[k0 x] rest IH]; simpl.
  - destruct (decide (key = k)); [done | reflexivity].
  - destruct (decide (k0 = key)) as [->|Hk]; simpl.
    + destruct (decide (key = k)); [done | reflexivity].
    + destruct (decide (k0 = k)); [reflexivity | exact IH].
Qed.

Lemma eq_str_true (v : value) (literal : string) :
  eq_str v literal = true ↔ v = PyStr literal.
Proof.
  destruct v; simpl; try (split; [discriminate | intros [=]]).
  rewrite bool_decide_eq_true. split; [by intros -> | by intros [= ->]].
Qed.

Lemma signalling_type_cases (t : value) :
  signalling_type t = true →
  t = PyStr "offer" ∨ t = PyStr "answer" ∨ t = PyStr "ice-candidate".
Proof.
  unfold signalling_type. rewrite !orb_true_iff, !eq_str_true. tauto.
Qed.

(** ** The primitives of the loop body *)

Lemma contains_registered (st : state) (s : string) (w : WebSocket) :
  active_connections st !! s = Some w → contains (PyStr s) st = Return true st.
Proof. intros H. unfold contains. rewrite H. reflexivity. Qed.

Lemma contains_absent (st : state) (target : value) :
  hashable target = true → ¬ is_registered st target →
  contains target st = Return false st.
Proof.
  intros Hh Hnot. destruct target; simpl in *; try done.
  rewrite bool_decide_eq_false_2; [done|].
  intros Hsome. apply Hnot. by eexists.
Qed.

Lemma getitem_registered (st : state) (s : string) (w : WebSocket) :
  active_connections st !! s = Some w → getitem (PyStr s) st = Return w st.
Proof. intros H. unfold getitem. by rewrite H. Qed.

Lemma send_text_open (w : WebSocket) (msg : value) (st : state) :
  w ∉ broken st → send_text w msg st = Return () (written [(w, msg)] st).
Proof. intros H. unfold send_text. by rewrite decide_False. Qed.

Lemma send_text_broken (w : WebSocket) (msg : value) (st : state) :
  w ∈ broken st → send_text w msg st = Raise (Exception "send_text") st.
Proof. intros H. unfold send_text. by rewrite decide_True. Qed.

Lemma print_encodable (pieces : list value) (st : state) :
  forallb encodable pieces = true → print pieces st = Return () st.
Proof. intros H. unfold print. by rewrite H. Qed.

(** A write followed by the [print] of its branch. *)
Lemma send_print_open (w : WebSocket) (msg : value) (pieces : list value)
    (st : state) :
  w ∉ broken st → forallb encodable pieces = true →
  (send_text w msg;; print pieces) st = Return () (written [(w, msg)] st).
Proof.
  intros Hw Hp. unfold mbind, M_bind. rewrite send_text_open by done.
  by apply print_encodable.
Qed.

Lemma send_print_broken (w : WebSocket) (msg : value) (pieces : list value)
    (st : state) :
  w ∈ broken st →
  (send_text w msg;; print pieces) st = Raise (Exception "send_text") st.
Proof. intros Hw. unfold mbind, M_bind. by rewrite send_text_broken. Qed.

Lemma send_print_unencodable (w : WebSocket) (msg : value)
    (pieces : list value) (st : state) :
  w ∉ broken st → forallb encodable pieces = false →
  (send_text w msg;; print pieces) st
  = Raise (Exception "UnicodeEncodeError") (written [(w, msg)] st).
Proof.
  intros Hw Hp. unfold mbind, M_bind. rewrite send_text_open by done.
  unfold print. by rewrite Hp.
Qed.

(** The lookup-then-forward pattern of the five directed branches. *)
Lemma route_found (s : string) (wt : WebSocket) (forward : WebSocket → M unit)
    (otherwise : M unit) (st : state) :
  active_connections st !! s = Some wt →
  (found ← contains (PyStr s);
   if found : bool then target_ws ← getitem (PyStr s); forward target_ws
   else otherwise) st
  = forward wt st.
Proof.
  intros Hs. unfold mbind, M_bind.
  by rewrite (contains_registered _ _ _ Hs), (getitem_registered _ _ _ Hs).
Qed.

Lemma route_absent (target : value) (forward otherwise : M unit) (st : state) :
  hashable target = true → ¬ is_registered st target →
  (found ← contains target; if found : bool then forward else otherwise) st
  = otherwise st.
Proof.
  intros Hh Hnot. unfold mbind, M_bind.
  by rewrite (contains_absent _ _ Hh Hnot).
Qed.

Lemma route_unhashable (target : value) (forward otherwise : M unit)
    (st : state) :
  hashable target = false →
  (found ← contains target; if found : bool then forward else otherwise) st
  = Raise (Exception "TypeError") st.
Proof. intros Hh. unfold mbind, M_bind. by destruct target. Qed.

(** ** The loop body, branch by branch *)

Ltac open_loop_body :=
  unfold loop_body, receive_text, json_loads, get, raise;
  unfold mbind, M_bind, mret, M_ret; cbn beta iota.

Ltac loop_body_branch Ht := open_loop_body; rewrite Ht; reflexivity.

Section Branches.
Context (websocket : WebSocket) (peer_id : string).
Context (items : list (string * value)) (st : state).

Lemma loop_body_register :
  dict_get items "type" = PyStr "register" →
  loop_body websocket peer_id (Text (Some (PyDict items))) st =
  (send_text websocket (registered_reply peer_id);;
   print [PyStr "Peer "; PyStr peer_id; PyStr " registered"]) st.
Proof. intros Ht. loop_body_branch Ht. Qed.

Lemma loop_body_connect :
  dict_get items "type" = PyStr "connect" →
  loop_body websocket peer_id (Text (Some (PyDict items))) st =
  (found ← contains (dict_get items "target");
   if found : bool then
     target_ws ← getitem (dict_get items "target");
     send_text target_ws (notification "connection-request" peer_id);;
     print [PyStr "Forwarded connection request from "; PyStr peer_id;
            PyStr " to "; dict_get items "target"]
   else
     send_text websocket (peer_unavailable (dict_get items "target"));;
     print [PyStr "Peer "; dict_get items "target"; PyStr " not found"]) st.
Proof. intros Ht. loop_body_branch Ht. Qed.

Lemma loop_body_offer :
  dict_get items "type" = PyStr "offer" →
  loop_body websocket peer_id (Text (Some (PyDict items))) st =
  (found ← contains (dict_get items "target");
   if found : bool then
     target_ws ← getitem (dict_get items "target");
     send_text target_ws
       (PyDict [("type", PyStr "offer"); ("from", PyStr peer_id);
                ("offer", dict_get items "offer")]);;
     print [PyStr "Forwarded offer from "; PyStr peer_id; PyStr " to ";
            dict_get items "target"]
   else send_text websocket (peer_unavailable (dict_get items "target"))) st.
Proof. intros Ht. loop_body_branch Ht. Qed.

Lemma loop_body_answer :
  dict_get items "type" = PyStr "answer" →
  loop_body websocket peer_id (Text (Some (PyDict items))) st =
  (found ← contains (dict_get items "target");
   if found : bool then
     target_ws ← getitem (dict_get items "target");
     send_text target_ws
       (PyDict [("type", PyStr "answer"); ("from", PyStr peer_id);
                ("answer", dict_get items "answer")]);;
     print [PyStr "Forwarded answer from "; PyStr peer_id; PyStr " to ";
            dict_get items "target"]
   else send_text websocket (peer_unavailable (dict_get items "target"))) st.
Proof. intros Ht. loop_body_branch Ht. Qed.

Lemma loop_body_ice_candidate :
  dict_get items "type" = PyStr "ice-candidate" →
  loop_body websocket peer_id (Text (Some (PyDict items))) st =
  (found ← contains (dict_get items "target");
   if found : bool then
     target_ws ← getitem (dict_get items "target");
     send_text target_ws
       (PyDict [("type", PyStr "ice-candidate"); ("from", PyStr peer_id);
                ("candidate", dict_get items "candidate")])
   else send_text websocket (peer_unavailable (dict_get items "target"))) st.
Proof. intros Ht. loop_body_branch Ht. Qed.

Lemma loop_body_disconnect :
  dict_get items "type" = PyStr "disconnect" →
  loop_body websocket peer_id (Text (Some (PyDict items))) st =
  (found ← contains (dict_get items "target");
   if found : bool then
     target_ws ← getitem (dict_get items "target");
     send_text target_ws (notification "peer-disconnected" peer_id)
   else mret ()) st.
Proof. intros Ht. loop_body_branch Ht. Qed.

(** A type that is none of the six literals falls through every test. *)
Lemma loop_body_other :
  eq_str (dict_get items "type") "register" = false →
  directed_type (dict_get items "type") = false →
  loop_body websocket peer_id (Text (Some (PyDict items))) st = Return () st.
Proof.
  unfold directed_type, answered_type, signalling_type.
  rewrite !orb_false_iff. intros Hr [[Hc [[Ho Ha] Hi]] Hd].
  open_loop_body. by rewrite Hr, Hc, Ho, Ha, Hi, Hd.
Qed.

Lemma loop_body_no_type :
  dict_get items "type" = PyNone →
  loop_body websocket peer_id (Text (Some (PyDict items))) st = Return () st.
Proof. intros Ht. apply loop_body_other; by rewrite Ht. Qed.
End Branches.

Lemma loop_body_raises w p e st :
  loop_body w p (Raises e) st = Raise e st.
Proof. reflexivity. Qed.

Lemma loop_body_not_json w p st :
  loop_body w p (Text None) st = Raise (Exception "JSONDecodeError") st.
Proof. reflexivity. Qed.

Lemma loop_body_not_dict w p v st :
  (∀ items, v ≠ PyDict items) →
  loop_body w p (Text (Some v)) st = Raise (Exception "AttributeError") st.
Proof. intros Hv. destruct v; try reflexivity. by destruct (Hv items). Qed.

(** A signalling message to a registered peer whose channel takes the write
    is forwarded, and nothing else changes. *)
Lemma loop_body_forward w p items s wt st :
  signalling_type (dict_get items "type") = true →
  dict_get items "target" = PyStr s →
  active_connections st !! s = Some wt → wt ∉ broken st →
  loop_body w p (Text (Some (PyDict items))) st =
  Return () (written [(wt, forwarded p (PyDict items))] st).
Proof.
  intros Ht Htarget Hs Hw. unfold forwarded.
  destruct (signalling_type_cases _ Ht) as [Hty|[Hty|Hty]].
  - rewrite loop_body_offer by done. rewrite Htarget, Hty.
    rewrite (route_found s wt) by done. by apply send_print_open.
  - rewrite loop_body_answer by done. rewrite Htarget, Hty.
    rewrite (route_found s wt) by done. by apply send_print_open.
  - rewrite loop_body_ice_candidate by done. rewrite Htarget, Hty.
    rewrite (route_found s wt) by done. by apply send_text_open.
Qed.

(** ** Frames on the wire *)

Lemma written_written new1 new2 st :
  written new2 (written new1 st) = written (new1 ++ new2) st.
Proof. unfold written, set_wire. simpl. by rewrite <- (assoc_L (++)). Qed.

Lemma written_nil st : written [] st = st.
Proof. destruct st. unfold written, set_wire. simpl. by rewrite (right_id_L [] (++)). Qed.

Lemma outbox_written w new st :
  outbox w (written new st) =
  (outbox w st ++ omap (λ f, if decide (f.1 = w) then Some f.2 else None) new)%list.
Proof. unfold outbox, written. simpl. apply omap_app. Qed.

Lemma outbox_same_channel (w : WebSocket) (frames : list value) :
  omap (λ f : WebSocket * value, if decide (f.1 = w) then Some f.2 else None)
       (map (λ m, (w, m)) frames) = frames.
Proof.
  induction frames as [|m frames IH]; simpl; [done|].
  rewrite decide_True by done. f_equal. exact IH.
Qed.

(** ** C1: routing of the signalling envelopes *)

(** C1. Every sequence of [offer], [answer] and [ice-candidate] envelopes
    that the connected peer [X] sends to a registered peer [Y] whose channel
    takes the writes is delivered to the channel of [Y] in the order sent:
    the run appends to the wire, and to the outbox of that channel, exactly
    one envelope per message, in order; each envelope has the type of its
    message, [from] equal to [X], and under the payload key of its type the
    value the message has there.  Nothing else of the state changes. *)
Theorem routing_correctness (st : state) (wx wy : WebSocket) (X Y : string)
    (msgs : list value) :
  handlers st !! wx = Some (X, OPEN) →
  active_connections st !! Y = Some wy →
  wy ∉ broken st →
  Forall (signalling_to Y) msgs →
  ∃ st', run st (sends wx msgs) = Some st' ∧
    st' = written (map (λ m, (wy, forwarded X m)) msgs) st ∧
    outbox wy st' = (outbox wy st ++ map (forwarded X) msgs)%list ∧
    Forall (λ m,
      field (forwarded X m) "type" = field m "type" ∧
      field (forwarded X m) "from" = PyStr X ∧
      field (forwarded X m) (payload_field (field m "type"))
        = field m (payload_field (field m "type"))) msgs.
Proof.
  intros Hx Hy Hw Hmsgs. eexists. split; [|split; [reflexivity|split]].
  - revert st Hx Hy Hw.
    induction Hmsgs as [|m msgs (items & -> & Ht & Htarget) _ IH]; intros st Hx Hy Hw.
    + simpl. by rewrite written_nil.
    + simpl. rewrite Hx. simpl. unfold websocket_endpoint_resume.
      rewrite (loop_body_forward _ _ _ _ _ _ Ht Htarget Hy Hw).
      fold (sends wx msgs). rewrite IH by done.
      by rewrite written_written.
  - rewrite outbox_written. f_equal.
    rewrite <- (outbox_same_channel wy (map (forwarded X) msgs)).
    by rewrite map_map.
  - eapply Forall_impl; [exact Hmsgs|].
    intros m (items & -> & Ht & _). simpl.
    destruct (signalling_type_cases _ Ht) as [Hty|[Hty|Hty]]; by rewrite Hty.
Qed.

Lemma routing_correctness_witness :
  ∃ st', run two_peers (sends 1 [msg_offer_bob; msg_candidate_bob]) = Some st' ∧
    st' = written [(2, forwarded "alice" msg_offer_bob);
                   (2, forwarded "alice" msg_candidate_bob)] two_peers ∧
    outbox 2 st' = (outbox 2 two_peers ++
      [forwarded "alice" msg_offer_bob; forwarded "alice" msg_candidate_bob])%list ∧
    Forall (λ m,
      field (forwarded "alice" m) "type" = field m "type" ∧
      field (forwarded "alice" m) "from" = PyStr "alice" ∧
      field (forwarded "alice" m) (payload_field (field m "type"))
        = field m (payload_field (field m "type")))
      [msg_offer_bob; msg_candidate_bob].
Proof.
  apply (routing_correctness two_peers 1 2 "alice" "bob"
           [msg_offer_bob; msg_candidate_bob]).
  - vm_compute. reflexivity.
  - vm_compute. reflexivity.
  - simpl. apply not_elem_of_empty.
  - repeat constructor; eexists; (split; [reflexivity|split; reflexivity]).
Defined.

(** ** What a turn of the loop can change *)

Lemma writes_ret {A} P (a : A) : writes P (mret a).
Proof. intros st. exists []. by rewrite written_nil. Qed.

Lemma writes_raise {A} P e : writes P (raise e : M A).
Proof. intros st. exists []. by rewrite written_nil. Qed.

Lemma writes_bind {A B} P (m : M A) (k : A → M B) :
  writes P m → (∀ a, writes P (k a)) → writes P (m ≫= k).
Proof.
  intros Hm Hk st. destruct (Hm st) as (new1 & Hst1 & HP1).
  unfold mbind, M_bind. destruct (m st) as [a st1|e st1]; simpl in Hst1; subst st1.
  - destruct (Hk a (written new1 st)) as (new2 & Hst2 & HP2).
    exists (new1 ++ new2)%list. rewrite Hst2, written_written.
    split; [done | by apply Forall_app].
  - by exists new1.
Qed.

Lemma writes_contains P target : writes P (contains target).
Proof.
  intros st. exists []. rewrite written_nil. split; [|done].
  by destruct target.
Qed.

Lemma writes_getitem P target : writes P (getitem target).
Proof.
  intros st. exists []. rewrite written_nil. split; [|done].
  destruct target; try done. simpl. by destruct (active_connections st !! s).
Qed.

Lemma writes_send_text (P : WebSocket * value → Prop) w msg :
  P (w, msg) → writes P (send_text w msg).
Proof.
  intros HP st. unfold send_text. destruct (decide (w ∈ broken st)).
  - exists []. by rewrite written_nil.
  - exists [(w, msg)]. split; [done | by constructor].
Qed.

Lemma writes_print P pieces : writes P (print pieces).
Proof.
  intros st. exists []. rewrite written_nil. split; [|done].
  unfold print. by destruct (forallb encodable pieces).
Qed.

Lemma writes_get P message key : writes P (get message key).
Proof. destruct message; first [apply writes_raise | apply writes_ret]. Qed.

(** Every turn of the loop only writes frames: envelopes that carry the
    [peer_id] of the coroutine under [from], and replies on its own channel
    that have no [from] key. *)
Lemma loop_body_writes w p r : writes (tagged w p) (loop_body w p r).
Proof.
  unfold loop_body.
  apply writes_bind; [destruct r; first [apply writes_raise | apply writes_ret]|].
  intros data. apply writes_bind;
    [destruct data; first [apply writes_raise | apply writes_ret]|].
  intros message. apply writes_bind; [apply writes_get|]. intros message_type.
  apply writes_bind; [apply writes_get|]. intros target_peer.
  repeat match goal with
  | |- writes _ (if ?b then _ else _) => destruct b
  | |- writes _ (_ ≫= _) => apply writes_bind; [|intros ?]
  | |- writes _ (contains _) => apply writes_contains
  | |- writes _ (getitem _) => apply writes_getitem
  | |- writes _ (get _ _) => apply writes_get
  | |- writes _ (print _) => apply writes_print
  | |- writes _ (mret _) => apply writes_ret
  | |- writes _ (send_text _ _) =>
      apply writes_send_text;
      first [ left; vm_compute; reflexivity
            | right; split; [reflexivity | vm_compute; reflexivity] ]
  end.
Qed.

Lemma loop_body_frame w p r st :
  let st' := state_of (loop_body w p r st) in
  active_connections st' = active_connections st ∧
  peer_registry st' = peer_registry st ∧
  handlers st' = handlers st ∧
  broken st' = broken st.
Proof.
  simpl. destruct (loop_body_writes w p r st) as (new & -> & _). done.
Qed.

(** The [finally] block deletes the key of the coroutine from both
    dictionaries, whatever is stored under it, and touches nothing else. *)
Lemma cleanup_deletes p st :
  cleanup p st =
  set_peer_registry (delete p) (set_active_connections (delete p) st).
Proof.
  destruct st as [ac reg h b l]. unfold cleanup. simpl.
  assert (Hac : (if bool_decide (is_Some (ac !! p))
                 then set_active_connections (delete p) (State ac reg h b l)
                 else State ac reg h b l) = State (delete p ac) reg h b l).
  { case_bool_decide as Hp; [done|].
    apply eq_None_not_Some in Hp. by rewrite (delete_id _ _ Hp). }
  rewrite Hac. clear Hac. unfold set_peer_registry, set_active_connections. simpl.
  case_bool_decide as Hp; [done|].
  apply eq_None_not_Some in Hp. by rewrite (delete_id _ _ Hp).
Qed.

(** The state after one resumption: the body returned and only frames were
    written, or it raised and the coroutine cleaned up and returned. *)
Lemma resume_cases w p r st :
  (∃ new, loop_body w p r st = Return () (written new st) ∧
          websocket_endpoint_resume w p r st = written new st) ∨
  (∃ e new, loop_body w p r st = Raise e (written new st) ∧
          websocket_endpoint_resume w p r st =
          set_handlers (<[w := (p, CLOSED)]>)
            (set_peer_registry (delete p)
               (set_active_connections (delete p) (written new st)))).
Proof.
  destruct (loop_body_writes w p r st) as (new & Hst & _).
  unfold websocket_endpoint_resume.
  destruct (loop_body w p r st) as [[] st'|e st']; simpl in Hst; subst st'.
  - left. by exists new.
  - right. exists e, new. by rewrite cleanup_deletes.
Qed.

(** ** Invariants of the reachable states *)

Lemma run_invariant (P : state → Prop) :
  (∀ st e st', P st → step st e = Some st' → P st') →
  ∀ evs st st', P st → run st evs = Some st' → P st'.
Proof.
  intros Hstep evs. induction evs as [|e evs IH]; intros st st' HP Hrun.
  - by injection Hrun as <-.
  - simpl in Hrun. destruct (step st e) as [st1|] eqn:He; [|done].
    simpl in Hrun. eauto.
Qed.

Lemma reachable_invariant (P : state → Prop) :
  P init → (∀ st e st', P st → step st e = Some st' → P st') →
  ∀ st, reachable st → P st.
Proof. intros H0 Hstep st [evs Hrun]. by eapply run_invariant. Qed.

Lemma step_no_partner st e st' :
  no_partner st → step st e = Some st' → no_partner st'.
Proof.
  unfold no_partner. intros Hinv Hstep. destruct e as [w p|w r|w]; simpl in Hstep.
  - destruct (handlers st !! w); [done|]. injection Hstep as <-. simpl.
    by apply map_Forall_insert_2.
  - destruct (handlers st !! w) as [[p []]|]; try done. injection Hstep as <-.
    destruct (resume_cases w p r st) as [(new & _ & ->)|(e & new & _ & ->)]; simpl.
    + done.
    + by apply map_Forall_delete.
  - by injection Hstep as <-.
Qed.

Lemma step_consistent st e st' :
  consistent st → step st e = Some st' → consistent st'.
Proof.
  intros [Hreg Hh] Hstep. destruct e as [w p|w r|w]; simpl in Hstep.
  - destruct (handlers st !! w) eqn:Hw; [done|]. injection Hstep as <-.
    split; simpl.
    + intros q. destruct (decide (p = q)) as [->|Hne].
      * by rewrite !lookup_insert_eq.
      * by rewrite !lookup_insert_ne.
    + intros q w'. destruct (decide (p = q)) as [->|Hne].
      * rewrite lookup_insert_eq. intros [= <-]. by rewrite lookup_insert_eq.
      * rewrite lookup_insert_ne by done. intros Hq.
        rewrite lookup_insert_ne; [by apply Hh|].
        intros ->. apply Hh in Hq. congruence.
  - destruct (handlers st !! w) as [[p []]|] eqn:Hw; try done.
    injection Hstep as <-.
    destruct (resume_cases w p r st) as [(new & _ & ->)|(e & new & _ & ->)].
    + done.
    + split; simpl.
      * intros q. destruct (decide (p = q)) as [->|Hne].
        -- by rewrite !lookup_delete_eq.
        -- by rewrite !lookup_delete_ne.
      * intros q w'. destruct (decide (p = q)) as [->|Hne].
        -- by rewrite lookup_delete_eq.
        -- rewrite lookup_delete_ne by done. intros Hq.
           rewrite lookup_insert_ne; [by apply Hh|].
           intros ->. apply Hh in Hq. congruence.
  - injection Hstep as <-. done.
Qed.

Lemma reachable_consistent st : reachable st → consistent st.
Proof.
  apply reachable_invariant; [|apply step_consistent].
  split; [intros p | intros p w]; simpl; by rewrite !lookup_empty.
Qed.

(** Frames once written stay on the wire, in their order: every step only
    appends. *)
Lemma step_wire_grows st e st' :
  step st e = Some st' → ∃ new, wire st' = (wire st ++ new)%list.
Proof.
  intros Hstep. destruct e as [w p|w r|w]; simpl in Hstep.
  - destruct (handlers st !! w); [done|]. injection Hstep as <-.
    exists []. simpl. by rewrite (right_id_L [] (++)).
  - destruct (handlers st !! w) as [[p []]|]; try done. injection Hstep as <-.
    destruct (resume_cases w p r st) as [(new & _ & ->)|(e & new & _ & ->)];
      by exists new.
  - injection Hstep as <-. exists []. simpl. by rewrite (right_id_L [] (++)).
Qed.

Lemma run_wire_grows evs st st' :
  run st evs = Some st' → ∃ new, wire st' = (wire st ++ new)%list.
Proof.
  revert st. induction evs as [|e evs IH]; intros st Hrun.
  - injection Hrun as <-. exists []. by rewrite (right_id_L [] (++)).
  - simpl in Hrun. destruct (step st e) as [st1|] eqn:He; [|done]. simpl in Hrun.
    destruct (step_wire_grows _ _ _ He) as [new1 H1].
    destruct (IH _ Hrun) as [new2 H2].
    exists (new1 ++ new2)%list. by rewrite H2, H1, (assoc_L (++)).
Qed.

(** ** C9: no entry ever names a partner *)

(** C9. In every reachable state, every entry of [peer_registry] has
    [connected_to] equal to [None]: registration stores [None] and no step
    of the relay stores anything else. *)
Theorem connected_to_always_none (st : state) (p : string) (info : peer_info) :
  reachable st → peer_registry st !! p = Some info → connected_to info = None.
Proof.
  intros Hreach Hp.
  assert (Hinv : no_partner st).
  { clear Hp. revert st Hreach. apply reachable_invariant; [|apply step_no_partner].
    apply map_Forall_empty. }
  exact (Hinv p info Hp).
Qed.

Lemma connected_to_always_none_witness :
  connected_to {| ws := 2; connected_to := None |} = None.
Proof.
  apply (connected_to_always_none two_peers "bob").
  - exists [Connect 1 "alice"; Connect 2 "bob"]. vm_compute. reflexivity.
  - vm_compute. reflexivity.
Defined.

(** *** The values of [peer_registry] are never read *)

Lemma blind_ret {A} (a : A) : blind (mret a).
Proof. by intros st1 st2 H. Qed.

Lemma blind_raise {A} e : blind (raise e : M A).
Proof. by intros st1 st2 H. Qed.

Lemma blind_bind {A B} (m : M A) (k : A → M B) :
  blind m → (∀ a, blind (k a)) → blind (m ≫= k).
Proof.
  intros Hm Hk st1 st2 H. specialize (Hm st1 st2 H). unfold mbind, M_bind.
  destruct (m st1) as [a1 s1|e1 s1], (m st2) as [a2 s2|e2 s2]; simpl in Hm;
    try done.
  destruct Hm as [<- Hs]. by apply Hk.
Qed.

Lemma blind_get message key : blind (get message key).
Proof. destruct message; first [apply blind_raise | apply blind_ret]. Qed.

Lemma blind_contains target : blind (contains target).
Proof.
  intros st1 st2 H. pose proof H as (Hac & _).
  unfold contains. rewrite Hac. by destruct target.
Qed.

Lemma blind_getitem target : blind (getitem target).
Proof.
  intros st1 st2 H. pose proof H as (Hac & _).
  unfold getitem. rewrite Hac.
  destruct target; try done. by destruct (active_connections st2 !! s).
Qed.

Lemma blind_print pieces : blind (print pieces).
Proof.
  intros st1 st2 H. unfold print. by destruct (forallb encodable pieces).
Qed.

Lemma blind_send_text w msg : blind (send_text w msg).
Proof.
  intros st1 st2 H. pose proof H as (Hac & Hh & Hb & Hw & Hdom).
  unfold send_text. rewrite Hb.
  destruct (decide (w ∈ broken st2)); simpl; [done|].
  split; [done|]. unfold same_but_registry_values. simpl. by rewrite Hw.
Qed.

Lemma loop_body_blind w p r : blind (loop_body w p r).
Proof.
  unfold loop_body.
  apply blind_bind; [destruct r; first [apply blind_raise | apply blind_ret]|].
  intros data. apply blind_bind;
    [destruct data; first [apply blind_raise | apply blind_ret]|].
  intros message. apply blind_bind; [apply blind_get|]. intros message_type.
  apply blind_bind; [apply blind_get|]. intros target_peer.
  repeat match goal with
  | |- blind (if ?b then _ else _) => destruct b
  | |- blind (_ ≫= _) => apply blind_bind; [|intros ?]
  | |- blind (contains _) => apply blind_contains
  | |- blind (getitem _) => apply blind_getitem
  | |- blind (get _ _) => apply blind_get
  | |- blind (print _) => apply blind_print
  | |- blind (mret _) => apply blind_ret
  | |- blind (send_text _ _) => apply blind_send_text
  end.
Qed.

(** No step reads a value of [peer_registry], the [connected_to] fields
    included: from two states that differ only there, every event leads to
    two states that differ only there (and is impossible in both or in
    neither). *)
Lemma step_ignores_registry_values st1 st2 e :
  same_but_registry_values st1 st2 →
  match step st1 e, step st2 e with
  | Some st1', Some st2' => same_but_registry_values st1' st2'
  | None, None => True
  | _, _ => False
  end.
Proof.
  intros H. pose proof H as (Hac & Hh & Hb & Hw & Hdom).
  destruct e as [w p|w r|w]; simpl; [rewrite Hh|rewrite Hh|].
  - destruct (handlers st2 !! w); [done|].
    unfold same_but_registry_values. simpl.
    by rewrite Hac, Hh, Hb, Hw, !dom_insert_L, Hdom.
  - destruct (handlers st2 !! w) as [[p []]|]; try done.
    unfold websocket_endpoint_resume.
    pose proof (loop_body_blind w p r st1 st2 H) as Hbody.
    destruct (loop_body w p r st1) as [[] s1|e1 s1],
             (loop_body w p r st2) as [[] s2|e2 s2]; simpl in Hbody; try done.
    + by destruct Hbody.
    + destruct Hbody as [_ (Hac' & Hh' & Hb' & Hw' & Hdom')].
      rewrite !cleanup_deletes. unfold same_but_registry_values. simpl.
      by rewrite Hac', Hh', Hb', Hw', !dom_delete_L, Hdom'.
  - unfold same_but_registry_values. simpl. by rewrite Hac, Hb, Hw, Hdom.
Qed.

(** ** Steps of one coroutine *)

Lemma step_receive st w p r :
  handlers st !! w = Some (p, OPEN) →
  step st (Receive w r) = Some (websocket_endpoint_resume w p r st).
Proof. intros H. simpl. by rewrite H. Qed.

Lemma resume_return w p r st st' :
  loop_body w p r st = Return () st' → websocket_endpoint_resume w p r st = st'.
Proof. intros H. unfold websocket_endpoint_resume. by rewrite H. Qed.

Lemma resume_raise w p r st e st' :
  loop_body w p r st = Raise e st' →
  websocket_endpoint_resume w p r st =
  set_handlers (<[w := (p, CLOSED)]>)
    (set_peer_registry (delete p) (set_active_connections (delete p) st')).
Proof.
  intros H. unfold websocket_endpoint_resume. by rewrite H, cleanup_deletes.
Qed.

(** ** C4: registration under a present identifier *)

(** C4. Opening a connection under a [peer_id] that is already a key of the
    registry is not rejected: the step happens, the new coroutine waits in
    its loop, and both dictionaries hold the new channel under [peer_id], so
    that a lookup gives the newest channel; the other keys are untouched. *)
Theorem reregistration_overwrites (st : state) (w_old w_new : WebSocket)
    (p : string) :
  active_connections st !! p = Some w_old →
  handlers st !! w_new = None →
  ∃ st', step st (Connect w_new p) = Some st' ∧
    handlers st' !! w_new = Some (p, OPEN) ∧
    active_connections st' !! p = Some w_new ∧
    peer_registry st' !! p = Some {| ws := w_new; connected_to := None |} ∧
    contains (PyStr p) st' = Return true st' ∧
    getitem (PyStr p) st' = Return w_new st' ∧
    (∀ q, q ≠ p →
       active_connections st' !! q = active_connections st !! q ∧
       peer_registry st' !! q = peer_registry st !! q).
Proof.
  intros Hold Hnew. eexists. simpl. rewrite Hnew. split; [reflexivity|].
  assert (Hp : active_connections (websocket_endpoint_accept w_new p st) !! p
               = Some w_new) by (simpl; apply lookup_insert_eq).
  split; [simpl; apply lookup_insert_eq|].
  split; [exact Hp|].
  split; [simpl; apply lookup_insert_eq|].
  split; [by eapply contains_registered|].
  split; [by apply getitem_registered|].
  intros q Hq. simpl. by rewrite !lookup_insert_ne.
Qed.

Lemma reregistration_overwrites_witness :
  ∃ st', step alice_alone (Connect 2 "alice") = Some st' ∧
    handlers st' !! 2 = Some ("alice", OPEN) ∧
    active_connections st' !! "alice" = Some 2 ∧
    peer_registry st' !! "alice" = Some {| ws := 2; connected_to := None |} ∧
    contains (PyStr "alice") st' = Return true st' ∧
    getitem (PyStr "alice") st' = Return 2 st' ∧
    (∀ q, q ≠ "alice" →
       active_connections st' !! q = active_connections alice_alone !! q ∧
       peer_registry st' !! q = peer_registry alice_alone !! q).
Proof.
  apply (reregistration_overwrites alice_alone 1 2 "alice").
  - vm_compute. reflexivity.
  - vm_compute. reflexivity.
Defined.

(** ** C6: registration at connection time, [register] as acknowledgement *)

(** C6. A peer is a key of both dictionaries as soon as its connection is
    accepted, with nothing written and nothing received on its channel: in
    that state a [connect] or signalling envelope that any waiting coroutine
    receives for it is forwarded to its channel (when the channel takes the
    write).  A [register] envelope received by a waiting coroutine whose
    channel takes the write is answered with [registered] and the
    [peer_id] of the coroutine, on its own channel, and both dictionaries
    and the coroutines are as before. *)
Theorem registration_is_implicit (st st2 : state) (w w2 : WebSocket)
    (p p2 : string) (items : list (string * value)) :
  handlers st !! w = None →
  handlers st2 !! w2 = Some (p2, OPEN) →
  w2 ∉ broken st2 →
  dict_get items "type" = PyStr "register" →
  (∃ st1, step st (Connect w p) = Some st1 ∧
     wire st1 = wire st ∧
     active_connections st1 !! p = Some w ∧
     peer_registry st1 !! p = Some {| ws := w; connected_to := None |} ∧
     (∀ w' q m, handlers st1 !! w' = Some (q, OPEN) → w ∉ broken st1 →
        signalling_to p m →
        step st1 (Receive w' (Text (Some m)))
        = Some (written [(w, forwarded q m)] st1)) ∧
     (∀ w' q m, handlers st1 !! w' = Some (q, OPEN) → w ∉ broken st1 →
        field m "type" = PyStr "connect" → field m "target" = PyStr p →
        step st1 (Receive w' (Text (Some m)))
        = Some (written [(w, PyDict [("type", PyStr "connection-request");
                                     ("from", PyStr q)])] st1))) ∧
  (∃ st3, step st2 (Receive w2 (Text (Some (PyDict items)))) = Some st3 ∧
     wire st3 = (wire st2 ++ [(w2, registered_reply p2)])%list ∧
     active_connections st3 = active_connections st2 ∧
     peer_registry st3 = peer_registry st2 ∧
     handlers st3 = handlers st2).
Proof.
  intros Hnew Hopen Hw2 Hreg. split.
  - exists (websocket_endpoint_accept w p st).
    split; [simpl; by rewrite Hnew|].
    assert (Hp : active_connections (websocket_endpoint_accept w p st) !! p
                 = Some w) by (simpl; apply lookup_insert_eq).
    split; [reflexivity|]. split; [exact Hp|].
    split; [simpl; apply lookup_insert_eq|]. split.
    + intros w' q m Hq Hw (its & -> & Ht & Htarget).
      rewrite (step_receive _ _ _ _ Hq). f_equal.
      apply resume_return. by eapply loop_body_forward.
    + intros w' q m Hq Hw Ht Htarget. destruct m; try done. simpl in Ht, Htarget.
      rewrite (step_receive _ _ _ _ Hq). f_equal.
      apply resume_return. rewrite loop_body_connect by done.
      rewrite Htarget, (route_found p w) by done. by apply send_print_open.
  - eexists. rewrite (step_receive _ _ _ _ Hopen).
    rewrite (resume_return _ _ _ _ (written [(w2, registered_reply p2)] st2)).
    + done.
    + rewrite loop_body_register by done. by apply send_print_open.
Qed.

Lemma registration_is_implicit_witness :
  (∃ st1, step alice_alone (Connect 2 "bob") = Some st1 ∧
     wire st1 = wire alice_alone ∧
     active_connections st1 !! "bob" = Some 2 ∧
     peer_registry st1 !! "bob" = Some {| ws := 2; connected_to := None |} ∧
     (∀ w' q m, handlers st1 !! w' = Some (q, OPEN) → 2 ∉ broken st1 →
        signalling_to "bob" m →
        step st1 (Receive w' (Text (Some m)))
        = Some (written [(2, forwarded q m)] st1)) ∧
     (∀ w' q m, handlers st1 !! w' = Some (q, OPEN) → 2 ∉ broken st1 →
        field m "type" = PyStr "connect" → field m "target" = PyStr "bob" →
        step st1 (Receive w' (Text (Some m)))
        = Some (written [(2, PyDict [("type", PyStr "connection-request");
                                     ("from", PyStr q)])] st1))) ∧
  (∃ st3, step alice_alone (Receive 1 (Text (Some msg_register))) = Some st3 ∧
     wire st3 = (wire alice_alone ++ [(1, registered_reply "alice")])%list ∧
     active_connections st3 = active_connections alice_alone ∧
     peer_registry st3 = peer_registry alice_alone ∧
     handlers st3 = handlers alice_alone).
Proof.
  apply (registration_is_implicit alice_alone alice_alone 2 1 "bob" "alice"
           [("type", PyStr "register")]).
  - vm_compute. reflexivity.
  - vm_compute. reflexivity.
  - simpl. apply not_elem_of_empty.
  - reflexivity.
Defined.

(** ** C8: the [from] tag does not depend on the message *)

Lemma agree_on_dict_set keys m key v :
  key ∉ keys → agree_on keys m (dict_set m key v).
Proof.
  intros Hkey. apply Forall_forall. intros k Hk.
  symmetry. apply dict_get_set_ne. by intros ->.
Qed.

Lemma from_is_not_read t : "from" ∉ fields_read t.
Proof.
  unfold fields_read.
  destruct (eq_str t "offer"), (eq_str t "answer"), (eq_str t "ice-candidate");
    vm_compute; intros H; by repeat (inversion H as [|? ? ? H']; clear H; rename H' into H).
Qed.

(** The turn of the loop depends on the message only through the keys it
    reads. *)
Lemma loop_body_reads w p m1 m2 st :
  agree_on (fields_read (dict_get m1 "type")) m1 m2 →
  loop_body w p (Text (Some (PyDict m1))) st
    = loop_body w p (Text (Some (PyDict m2))) st.
Proof.
  intros Hagree. unfold agree_on, fields_read in Hagree.
  apply Forall_cons in Hagree as [Htype Hagree].
  apply Forall_cons in Hagree as [Htarget Hagree].
  open_loop_body. rewrite <- Htype, <- Htarget.
  destruct (eq_str (dict_get m1 "type") "register"); [done|].
  destruct (eq_str (dict_get m1 "type") "connect"); [done|].
  destruct (eq_str (dict_get m1 "type") "offer").
  { apply Forall_cons in Hagree as [<- _]. done. }
  destruct (eq_str (dict_get m1 "type") "answer").
  { apply Forall_cons in Hagree as [<- _]. done. }
  destruct (eq_str (dict_get m1 "type") "ice-candidate").
  { apply Forall_cons in Hagree as [<- _]. done. }
  done.
Qed.

(** C8. Two messages that agree on the keys the loop reads for their type
    ([type], [target] and the payload key of the type) make the same turn
    of the loop, to the same state and with the same frames, whatever else
    they hold; in particular setting a [from] key in a message changes
    nothing.  Every envelope a turn writes carries under [from] the
    [peer_id] of the coroutine, the only frames without a [from] key being
    replies on the coroutine's own channel. *)
Theorem from_is_path_supplied (st : state) (w : WebSocket) (p : string)
    (m1 m2 : list (string * value)) :
  agree_on (fields_read (dict_get m1 "type")) m1 m2 →
  loop_body w p (Text (Some (PyDict m1))) st
    = loop_body w p (Text (Some (PyDict m2))) st ∧
  websocket_endpoint_resume w p (Text (Some (PyDict m1))) st
    = websocket_endpoint_resume w p (Text (Some (PyDict m2))) st ∧
  (∀ v, websocket_endpoint_resume w p (Text (Some (PyDict (dict_set m1 "from" v)))) st
        = websocket_endpoint_resume w p (Text (Some (PyDict m1))) st) ∧
  ∃ new, state_of (loop_body w p (Text (Some (PyDict m1))) st) = written new st ∧
    Forall (tagged w p) new.
Proof.
  intros Hagree. pose proof (loop_body_reads w p m1 m2 st Hagree) as Hbody.
  split; [exact Hbody|]. split; [|split].
  - unfold websocket_endpoint_resume. by rewrite Hbody.
  - intros v. unfold websocket_endpoint_resume.
    rewrite <- (loop_body_reads w p m1 (dict_set m1 "from" v) st); [done|].
    apply agree_on_dict_set, from_is_not_read.
  - apply loop_body_writes.
Qed.

Lemma from_is_path_supplied_witness :
  let spoofed := dict_set (dict_set [("type", PyStr "offer"); ("target", PyStr "bob");
                             ("offer", PyDict [("sdp", PyStr "X")])]
                            "from" (PyStr "mallory")) "answer" (PyInt 7) in
  let plain := [("type", PyStr "offer"); ("target", PyStr "bob");
                ("offer", PyDict [("sdp", PyStr "X")])] in
  loop_body 1 "alice" (Text (Some (PyDict spoofed))) two_peers
    = loop_body 1 "alice" (Text (Some (PyDict plain))) two_peers ∧
  websocket_endpoint_resume 1 "alice" (Text (Some (PyDict spoofed))) two_peers
    = websocket_endpoint_resume 1 "alice" (Text (Some (PyDict plain))) two_peers ∧
  (∀ v, websocket_endpoint_resume 1 "alice"
          (Text (Some (PyDict (dict_set spoofed "from" v)))) two_peers
        = websocket_endpoint_resume 1 "alice" (Text (Some (PyDict spoofed))) two_peers) ∧
  ∃ new, state_of (loop_body 1 "alice" (Text (Some (PyDict spoofed))) two_peers)
         = written new two_peers ∧
    Forall (tagged 1 "alice") new.
Proof.
  apply (from_is_path_supplied two_peers 1 "alice").
  vm_compute. repeat constructor.
Defined.

Example spoofed_from_is_overwritten :
  wire <$> step two_peers (Receive 1 (Text (Some (PyDict
    [("type", PyStr "offer"); ("target", PyStr "bob");
     ("from", PyStr "mallory"); ("offer", PyDict [("sdp", PyStr "X")])]))))
  = Some [(2, PyDict [("type", PyStr "offer"); ("from", PyStr "alice");
                      ("offer", PyDict [("sdp", PyStr "X")])])].
Proof. vm_compute. reflexivity. Qed.

(** ** C2: malformed input *)

(** C2, as the code has it.  A text frame that holds a JSON object without
    a [type] key is ignored: the state, the wire included, is as before and
    the coroutine waits for the next frame.  A text frame that is not JSON,
    or that is JSON but not an object, is not answered either, but it ends
    the loop: the coroutine returns and the entries of its [peer_id] are
    deleted from both dictionaries. *)
Theorem malformed_input (st : state) (w : WebSocket) (p : string)
    (items : list (string * value)) (v : value) :
  handlers st !! w = Some (p, OPEN) →
  "type" ∉ items.*1 →
  (∀ its, v ≠ PyDict its) →
  step st (Receive w (Text (Some (PyDict items)))) = Some st ∧
  (∀ data, data = None ∨ data = Some v →
     ∃ st', step st (Receive w (Text data)) = Some st' ∧
       wire st' = wire st ∧
       handlers st' !! w = Some (p, CLOSED) ∧
       active_connections st' !! p = None ∧
       peer_registry st' !! p = None).
Proof.
  intros Hopen Hno_type Hv. split.
  - rewrite (step_receive _ _ _ _ Hopen). f_equal. apply resume_return.
    apply loop_body_no_type. by apply dict_get_missing.
  - intros data Hdata. eexists. rewrite (step_receive _ _ _ _ Hopen).
    split; [reflexivity|].
    assert (∃ e, loop_body w p (Text data) st = Raise e st) as [e He].
    { destruct Hdata as [->| ->]; eexists;
        [apply loop_body_not_json | by apply loop_body_not_dict]. }
    rewrite (resume_raise _ _ _ _ _ _ He). simpl.
    by rewrite lookup_insert_eq, !lookup_delete_eq.
Qed.

Lemma malformed_input_witness :
  step alice_alone (Receive 1 (Text (Some (PyDict [("target", PyStr "bob")]))))
    = Some alice_alone ∧
  (∀ data, data = None ∨ data = Some (PyList [PyInt 1]) →
     ∃ st', step alice_alone (Receive 1 (Text data)) = Some st' ∧
       wire st' = wire alice_alone ∧
       handlers st' !! 1 = Some ("alice", CLOSED) ∧
       active_connections st' !! "alice" = None ∧
       peer_registry st' !! "alice" = None).
Proof.
  apply (malformed_input alice_alone 1 "alice" [("target", PyStr "bob")]
           (PyList [PyInt 1])).
  - vm_compute. reflexivity.
  - simpl. intros H. apply list_elem_of_singleton in H. discriminate.
  - intros its. discriminate.
Defined.

(** The claim fails for a frame that is not JSON: the channel's loop ends
    and the peer is no longer registered. *)
Lemma unparseable_text_closes :
  ∃ st', step alice_alone (Receive 1 (Text None)) = Some st' ∧
    handlers st' !! 1 = Some ("alice", CLOSED) ∧
    handlers st' !! 1 ≠ Some ("alice", OPEN) ∧
    active_connections st' !! "alice" = None.
Proof.
  eexists. split; [reflexivity|]. vm_compute. repeat split; discriminate.
Qed.

(** ** C3: a target that is not registered *)

Lemma answered_type_cases (t : value) :
  answered_type t = true →
  t = PyStr "connect" ∨ t = PyStr "offer" ∨ t = PyStr "answer" ∨
  t = PyStr "ice-candidate".
Proof.
  unfold answered_type. rewrite orb_true_iff, eq_str_true.
  intros [?|H]; [by left|]. right. by apply signalling_type_cases.
Qed.

(** An envelope of one of the four answered types whose target is hashable
    and not registered is answered on the sender's channel, when that
    channel takes the write; after the reply to a [connect] the target is
    printed, which raises when it cannot be encoded; a [disconnect] to
    such a target does nothing. *)
Lemma loop_body_unavailable w p items st :
  hashable (dict_get items "target") = true →
  ¬ is_registered st (dict_get items "target") →
  (answered_type (dict_get items "type") = true → w ∉ broken st →
   encodable (dict_get items "target") = true ∨
     dict_get items "type" ≠ PyStr "connect" →
   loop_body w p (Text (Some (PyDict items))) st =
   Return () (written [(w, peer_unavailable (dict_get items "target"))] st)) ∧
  (dict_get items "type" = PyStr "connect" → w ∉ broken st →
   encodable (dict_get items "target") = false →
   loop_body w p (Text (Some (PyDict items))) st =
   Raise (Exception "UnicodeEncodeError")
     (written [(w, peer_unavailable (dict_get items "target"))] st)) ∧
  (dict_get items "type" = PyStr "disconnect" →
   loop_body w p (Text (Some (PyDict items))) st = Return () st).
Proof.
  intros Hh Hnot. split; [|split].
  - intros Ht Hw Henc.
    destruct (answered_type_cases _ Ht) as [Hty|[Hty|[Hty|Hty]]];
      [ rewrite loop_body_connect by done
      | rewrite loop_body_offer by done
      | rewrite loop_body_answer by done
      | rewrite loop_body_ice_candidate by done ];
      rewrite route_absent by done; try by apply send_text_open.
    destruct Henc as [Henc|Hne]; [|done].
    apply send_print_open; [done|]. simpl. by rewrite Henc.
  - intros Hty Hw Henc. rewrite loop_body_connect by done.
    rewrite route_absent by done.
    apply send_print_unencodable; [done|]. simpl. by rewrite Henc.
  - intros Hty. rewrite loop_body_disconnect by done.
    by rewrite route_absent.
Qed.

Lemma step_unavailable st w p items :
  handlers st !! w = Some (p, OPEN) →
  w ∉ broken st →
  hashable (dict_get items "target") = true →
  encodable (dict_get items "target") = true →
  ¬ is_registered st (dict_get items "target") →
  (answered_type (dict_get items "type") = true →
   step st (Receive w (Text (Some (PyDict items))))
   = Some (written [(w, peer_unavailable (dict_get items "target"))] st)) ∧
  (dict_get items "type" = PyStr "disconnect" →
   step st (Receive w (Text (Some (PyDict items)))) = Some st).
Proof.
  intros Hopen Hw Hh Henc Hnot.
  destruct (loop_body_unavailable w p items st Hh Hnot) as (Hans & _ & Hdis).
  rewrite (step_receive _ _ _ _ Hopen). split; intros Ht; f_equal;
    apply resume_return; auto.
Qed.




(** The reply to a [connect] whose target holds a lone surrogate is
    written, and the sender's loop ends after it. *)
Example connect_to_surrogate_target :
  (λ st', (wire st', handlers st' !! 1, active_connections st' !! "alice")) <$>
    step alice_alone (Receive 1 (Text (Some (PyDict
      [("type", PyStr "connect"); ("target", PyStrSurrogate [] 0 [])]))))
  = Some ([(1, peer_unavailable (PyStrSurrogate [] 0 []))],
          Some ("alice", CLOSED), None).
Proof. vm_compute. reflexivity. Qed.


(** An unhashable target is not answered either: the membership test
    raises and the coroutine returns. *)
Example unhashable_target_closes :
  (λ st', (wire st', handlers st' !! 1)) <$>
    step alice_alone (Receive 1 (Text (Some (PyDict
      [("type", PyStr "offer"); ("target", PyList [])]))))
  = Some ([], Some ("alice", CLOSED)).
Proof. vm_compute. reflexivity. Qed.

(** ** C5: clean-up when the loop ends *)

Lemma loop_body_unhashable w p items st :
  directed_type (dict_get items "type") = true →
  hashable (dict_get items "target") = false →
  loop_body w p (Text (Some (PyDict items))) st
  = Raise (Exception "TypeError") st.
Proof.
  intros Ht Hh. unfold directed_type in Ht. apply orb_true_iff in Ht as [Ht|Ht].
  - destruct (answered_type_cases _ Ht) as [Hty|[Hty|[Hty|Hty]]];
      [ rewrite loop_body_connect by done
      | rewrite loop_body_offer by done
      | rewrite loop_body_answer by done
      | rewrite loop_body_ice_candidate by done ]; by apply route_unhashable.
  - apply eq_str_true in Ht. rewrite loop_body_disconnect by done.
    by apply route_unhashable.
Qed.

(** The ways the loop ends: [receive_text] raises (a disconnect or any
    other error), the frame is not JSON, the JSON is not an object, the
    target of a directed envelope is unhashable, or a write fails. *)
Lemma closes_reasons w p st :
  (∀ e, closes w p (Raises e) st) ∧
  closes w p (Text None) st ∧
  (∀ v, (∀ its, v ≠ PyDict its) → closes w p (Text (Some v)) st) ∧
  (∀ items, directed_type (dict_get items "type") = true →
     hashable (dict_get items "target") = false →
     closes w p (Text (Some (PyDict items))) st) ∧
  (∀ items, dict_get items "type" = PyStr "register" → w ∈ broken st →
     closes w p (Text (Some (PyDict items))) st).
Proof.
  unfold closes. repeat split.
  - intros e. by exists e, st.
  - by eexists _, st.
  - intros v Hv. eexists _, st. by apply loop_body_not_dict.
  - intros items Ht Hh. exists (Exception "TypeError"), st.
    assert (Hc : ∀ k : bool → M unit,
              (contains (dict_get items "target") ≫= k) st
              = Raise (Exception "TypeError") st).
    { intros k. unfold mbind, M_bind.
      by destruct (dict_get items "target"). }
    unfold directed_type in Ht. apply orb_true_iff in Ht as [Ht|Ht].
    + destruct (answered_type_cases _ Ht) as [Hty|[Hty|[Hty|Hty]]];
        [ rewrite loop_body_connect by done
        | rewrite loop_body_offer by done
        | rewrite loop_body_answer by done
        | rewrite loop_body_ice_candidate by done ]; apply Hc.
    + apply eq_str_true in Ht. rewrite loop_body_disconnect by done. apply Hc.
  - intros items Ht Hw. eexists _, st.
    rewrite loop_body_register by done. by apply send_print_broken.
Qed.

(** A key absent from both dictionaries stays absent until a connection is
    opened under it. *)
Lemma step_absent st e st' A :
  step st e = Some st' → (∀ w, e ≠ Connect w A) →
  active_connections st !! A = None → peer_registry st !! A = None →
  active_connections st' !! A = None ∧ peer_registry st' !! A = None.
Proof.
  intros Hstep He Hac Hreg. destruct e as [w p|w r|w]; simpl in Hstep.
  - destruct (handlers st !! w); [done|]. injection Hstep as <-. simpl.
    assert (p ≠ A) by (intros ->; by apply (He w)).
    by rewrite !lookup_insert_ne.
  - destruct (handlers st !! w) as [[p []]|]; try done. injection Hstep as <-.
    destruct (resume_cases w p r st) as [(new & _ & ->)|(e & new & _ & ->)];
      simpl; [done|].
    destruct (decide (p = A)) as [->|Hne].
    + by rewrite !lookup_delete_eq.
    + by rewrite !lookup_delete_ne.
  - by injection Hstep as <-.
Qed.

Lemma run_absent evs st st' A :
  run st evs = Some st' → (∀ w, Connect w A ∉ evs) →
  active_connections st !! A = None → peer_registry st !! A = None →
  active_connections st' !! A = None ∧ peer_registry st' !! A = None.
Proof.
  revert st. induction evs as [|e evs IH]; intros st Hrun Hevs Hac Hreg.
  - by injection Hrun as <-.
  - simpl in Hrun. destruct (step st e) as [st1|] eqn:He; [|done]. simpl in Hrun.
    destruct (step_absent st e st1 A He) as [Hac1 Hreg1]; [|done|done|].
    + intros w ->. apply (Hevs w). by left.
    + apply (IH st1); [done| |done|done].
      intros w Hin. apply (Hevs w). by right.
Qed.

Lemma absent_not_registered st A :
  active_connections st !! A = None → ¬ is_registered st (PyStr A).
Proof. intros Hac (s & [= <-] & [w Hw]). congruence. Qed.

(** C5, as the code has it.  When the loop of the coroutine of peer [A]
    ends, for whatever reason the body raises, the coroutine returns and
    the key [A] is in neither dictionary.  From then on, until a
    connection is opened under [A] again, [A] stays absent, and a [connect],
    [offer], [answer] or [ice-candidate] envelope addressed to [A] is
    answered with [peer-unavailable] naming [A] on its sender's channel
    (when that channel takes the write), while a [disconnect] envelope
    addressed to [A] is not answered. *)
Theorem cleanup_on_close (st : state) (w : WebSocket) (A : string)
    (r : received) :
  handlers st !! w = Some (A, OPEN) →
  closes w A r st →
  ∃ st', step st (Receive w r) = Some st' ∧
    handlers st' !! w = Some (A, CLOSED) ∧
    active_connections st' !! A = None ∧
    peer_registry st' !! A = None ∧
    ∀ evs st2, run st' evs = Some st2 → (∀ w', Connect w' A ∉ evs) →
      active_connections st2 !! A = None ∧
      peer_registry st2 !! A = None ∧
      ∀ w' B items,
        handlers st2 !! w' = Some (B, OPEN) → w' ∉ broken st2 →
        dict_get items "target" = PyStr A →
        (answered_type (dict_get items "type") = true →
         step st2 (Receive w' (Text (Some (PyDict items))))
         = Some (written [(w', peer_unavailable (PyStr A))] st2)) ∧
        (dict_get items "type" = PyStr "disconnect" →
         step st2 (Receive w' (Text (Some (PyDict items)))) = Some st2).
Proof.
  intros Hopen (e & st1 & Hraise).
  exists (websocket_endpoint_resume w A r st).
  split; [by apply step_receive|].
  rewrite (resume_raise _ _ _ _ _ _ Hraise).
  assert (Hac : active_connections
            (set_handlers (<[w := (A, CLOSED)]>)
               (set_peer_registry (delete A)
                  (set_active_connections (delete A) st1))) !! A = None)
    by (simpl; apply lookup_delete_eq).
  assert (Hreg : peer_registry
            (set_handlers (<[w := (A, CLOSED)]>)
               (set_peer_registry (delete A)
                  (set_active_connections (delete A) st1))) !! A = None)
    by (simpl; apply lookup_delete_eq).
  split; [simpl; apply lookup_insert_eq|]. split; [exact Hac|]. split; [exact Hreg|].
  intros evs st2 Hrun Hevs.
  destruct (run_absent _ _ _ A Hrun Hevs Hac Hreg) as [Hac2 Hreg2].
  split; [exact Hac2|]. split; [exact Hreg2|].
  intros w' B items Hopen' Hw' Htarget.
  rewrite <- Htarget. apply (step_unavailable st2 w' B items); try done.
  - by rewrite Htarget.
  - by rewrite Htarget.
  - rewrite Htarget. by apply absent_not_registered.
Qed.

Lemma cleanup_on_close_witness :
  ∃ st', step two_peers (Receive 2 (Raises WebSocketDisconnect)) = Some st' ∧
    handlers st' !! 2 = Some ("bob", CLOSED) ∧
    active_connections st' !! "bob" = None ∧
    peer_registry st' !! "bob" = None ∧
    ∀ evs st2, run st' evs = Some st2 → (∀ w', Connect w' "bob" ∉ evs) →
      active_connections st2 !! "bob" = None ∧
      peer_registry st2 !! "bob" = None ∧
      ∀ w' B items,
        handlers st2 !! w' = Some (B, OPEN) → w' ∉ broken st2 →
        dict_get items "target" = PyStr "bob" →
        (answered_type (dict_get items "type") = true →
         step st2 (Receive w' (Text (Some (PyDict items))))
         = Some (written [(w', peer_unavailable (PyStr "bob"))] st2)) ∧
        (dict_get items "type" = PyStr "disconnect" →
         step st2 (Receive w' (Text (Some (PyDict items)))) = Some st2).
Proof.
  apply (cleanup_on_close two_peers 2 "bob" (Raises WebSocketDisconnect)).
  - vm_compute. reflexivity.
  - exists WebSocketDisconnect, two_peers. reflexivity.
Defined.

(** The claim fails for [disconnect]: after Bob's channel has closed, a
    [disconnect] envelope that Alice addresses to Bob is a directed envelope
    to an absent peer, and nothing is written in reply. *)
Lemma disconnect_after_close_unanswered :
  ∃ st1 st2,
    step two_peers (Receive 2 (Raises WebSocketDisconnect)) = Some st1 ∧
    active_connections st1 !! "bob" = None ∧
    directed_type (field msg_disconnect_bob "type") = true ∧
    field msg_disconnect_bob "target" = PyStr "bob" ∧
    step st1 (Receive 1 (Text (Some msg_disconnect_bob))) = Some st2 ∧
    wire st2 = [] ∧ outbox 1 st2 = [].
Proof.
  eexists _, _. split; [reflexivity|]. split; [vm_compute; reflexivity|].
  split; [reflexivity|]. split; [reflexivity|].
  split; [vm_compute; reflexivity|]. split; reflexivity.
Qed.

(** ** C10: the closure of a superseded channel *)

(** C10. The clean-up deletes the key of the closing coroutine whatever
    channel is stored under it.  When [peer_id] has been registered again
    on a new channel and the coroutine of the old channel leaves its loop,
    the entries of the new channel are deleted from both dictionaries,
    while the coroutine of the new channel still waits in its loop and its
    channel is as writable as before: the peer is connected and not
    routable, and an envelope of an answered type addressed to it is
    answered with [peer-unavailable]. *)
Theorem orphan_closure_unregisters_newest (st : state)
    (w_old w_new : WebSocket) (A : string) (r : received) :
  handlers st !! w_old = Some (A, OPEN) →
  handlers st !! w_new = Some (A, OPEN) →
  w_old ≠ w_new →
  active_connections st !! A = Some w_new →
  peer_registry st !! A = Some {| ws := w_new; connected_to := None |} →
  closes w_old A r st →
  ∃ st', step st (Receive w_old r) = Some st' ∧
    active_connections st' !! A = None ∧
    peer_registry st' !! A = None ∧
    handlers st' !! w_old = Some (A, CLOSED) ∧
    handlers st' !! w_new = Some (A, OPEN) ∧
    broken st' = broken st ∧
    contains (PyStr A) st' = Return false st' ∧
    ∀ w' B items,
      handlers st' !! w' = Some (B, OPEN) → w' ∉ broken st' →
      dict_get items "target" = PyStr A →
      answered_type (dict_get items "type") = true →
      step st' (Receive w' (Text (Some (PyDict items))))
      = Some (written [(w', peer_unavailable (PyStr A))] st').
Proof.
  intros Hold Hnew Hne Hac Hreg (e & st1 & Hraise).
  exists (websocket_endpoint_resume w_old A r st).
  split; [by apply step_receive|].
  pose proof (loop_body_frame w_old A r st) as Hframe.
  rewrite Hraise in Hframe. simpl in Hframe.
  destruct Hframe as (_ & _ & Hh & Hb).
  rewrite (resume_raise _ _ _ _ _ _ Hraise).
  set (st' := set_handlers _ _).
  assert (Hac' : active_connections st' !! A = None)
    by (simpl; apply lookup_delete_eq).
  split; [exact Hac'|].
  split; [simpl; apply lookup_delete_eq|].
  split; [simpl; apply lookup_insert_eq|].
  split; [simpl; by rewrite lookup_insert_ne, Hh|].
  split; [exact Hb|].
  split; [apply contains_absent; [done | by apply absent_not_registered]|].
  intros w' B items Hopen' Hw' Htarget Ht.
  rewrite <- Htarget. apply (step_unavailable st' w' B items); try done.
  - by rewrite Htarget.
  - by rewrite Htarget.
  - rewrite Htarget. by apply absent_not_registered.
Qed.

Lemma orphan_closure_unregisters_newest_witness :
  ∃ st', step (websocket_endpoint_accept 2 "alice" alice_alone)
              (Receive 1 (Raises WebSocketDisconnect)) = Some st' ∧
    active_connections st' !! "alice" = None ∧
    peer_registry st' !! "alice" = None ∧
    handlers st' !! 1 = Some ("alice", CLOSED) ∧
    handlers st' !! 2 = Some ("alice", OPEN) ∧
    broken st' = broken (websocket_endpoint_accept 2 "alice" alice_alone) ∧
    contains (PyStr "alice") st' = Return false st' ∧
    ∀ w' B items,
      handlers st' !! w' = Some (B, OPEN) → w' ∉ broken st' →
      dict_get items "target" = PyStr "alice" →
      answered_type (dict_get items "type") = true →
      step st' (Receive w' (Text (Some (PyDict items))))
      = Some (written [(w', peer_unavailable (PyStr "alice"))] st').
Proof.
  apply (orphan_closure_unregisters_newest
           (websocket_endpoint_accept 2 "alice" alice_alone) 1 2 "alice"
           (Raises WebSocketDisconnect)).
  - vm_compute. reflexivity.
  - vm_compute. reflexivity.
  - lia.
  - vm_compute. reflexivity.
  - vm_compute. reflexivity.
  - exists WebSocketDisconnect, (websocket_endpoint_accept 2 "alice" alice_alone).
    reflexivity.
Defined.

(** The run that leads there: Alice connects, connects again on a second
    channel, and the first channel closes. *)
Example orphan_closure_run :
  (λ st, (active_connections st !! "alice", handlers st !! 2)) <$>
    run init [Connect 1 "alice"; Connect 2 "alice";
              Receive 1 (Raises WebSocketDisconnect)]
  = Some (None, Some ("alice", OPEN)).
Proof. vm_compute. reflexivity. Qed.

(** ** C7: start-up *)

(** C7. When the key file or the certificate file is missing under
    [BASE_DIR], [main] prints the diagnostic and exits with status 1 without
    calling [uvicorn.run]; when both exist it calls [uvicorn.run] on host
    [0.0.0.0] and port [10500] with the two paths. *)
Theorem startup_requires_certificates (BASE_DIR : string) (files : gset string) :
  (path_join BASE_DIR "cert.key" ∉ files ∨ path_join BASE_DIR "cert.crt" ∉ files →
   ∃ printed, main BASE_DIR files = Exit 1 printed ∧
     "SSL certificates not found!" ∈ printed) ∧
  (path_join BASE_DIR "cert.key" ∈ files ∧ path_join BASE_DIR "cert.crt" ∈ files →
   main BASE_DIR files =
   UvicornRun "0.0.0.0" 10500
     (path_join BASE_DIR "cert.key") (path_join BASE_DIR "cert.crt")).
Proof.
  unfold main. split.
  - intros Hmissing. eexists.
    destruct Hmissing as [Hk|Hc].
    + rewrite (bool_decide_eq_false_2 _ Hk). simpl. split; [reflexivity|].
      by left.
    + rewrite (bool_decide_eq_false_2 _ Hc). rewrite orb_true_r.
      split; [reflexivity|]. by left.
  - intros [Hk Hc].
    by rewrite (bool_decide_eq_true_2 _ Hk), (bool_decide_eq_true_2 _ Hc).
Qed.

Lemma startup_requires_certificates_witness :
  (∃ printed, main "/srv" {[ "/srv/cert.crt" ]} = Exit 1 printed ∧
     "SSL certificates not found!" ∈ printed) ∧
  main "/srv" {[ "/srv/cert.key"; "/srv/cert.crt" ]} =
  UvicornRun "0.0.0.0" 10500 "/srv/cert.key" "/srv/cert.crt".
Proof.
  split.
  - apply (proj1 (startup_requires_certificates "/srv" {[ "/srv/cert.crt" ]})).
    left. vm_compute. intros H. discriminate.
  - apply (proj2 (startup_requires_certificates "/srv"
                    {[ "/srv/cert.key"; "/srv/cert.crt" ]})).
    split; set_solver.
Defined.

(** ** A write that fails *)

(** When Bob's remote end is gone but his coroutine has not yet noticed,
    Alice's offer to him raises in her own coroutine: nothing is written,
    her loop ends and her entries are deleted, while Bob stays registered. *)
Example failed_forward_closes_sender :
  (λ st, (wire st, handlers st !! 1, active_connections st !! "alice",
          active_connections st !! "bob")) <$>
    run two_peers [Hangup 2; Receive 1 (Text (Some msg_offer_bob))]
  = Some ([], Some ("alice", CLOSED), None, Some 2).
Proof. vm_compute. reflexivity. Qed.

(** * Further properties of [server.py] *)

(** ** One turn of the loop, as a whole *)

Lemma eq_str_false (v : value) (literal : string) :
  eq_str v literal = false ↔ v ≠ PyStr literal.
Proof.
  rewrite <- not_true_iff_false, eq_str_true. done.
Qed.

Lemma directed_type_cases (t : value) :
  directed_type t = true →
  t = PyStr "connect" ∨ t = PyStr "offer" ∨ t = PyStr "answer" ∨
  t = PyStr "ice-candidate" ∨ t = PyStr "disconnect".
Proof.
  unfold directed_type. rewrite orb_true_iff, eq_str_true.
  intros [H|H]; [|tauto].
  destruct (answered_type_cases _ H) as [?|[?|[?|?]]]; tauto.
Qed.

(** The three ways the lookup of a target goes. *)
Lemma route_cases (target : value) (forward : WebSocket → M unit)
    (otherwise : M unit) (st : state) :
  let route :=
    (found ← contains target;
     if found : bool then target_ws ← getitem target; forward target_ws
     else otherwise) st in
  (∃ s wt, target = PyStr s ∧ active_connections st !! s = Some wt ∧
           route = forward wt st) ∨
  (hashable target = true ∧ ¬ is_registered st target ∧ route = otherwise st) ∨
  (hashable target = false ∧ route = Raise (Exception "TypeError") st).
Proof.
  intros route. subst route. destruct (hashable target) eqn:Hh.
  - assert (Hcases : (∃ s wt, target = PyStr s ∧
                        active_connections st !! s = Some wt) ∨
                     ¬ is_registered st target).
    { destruct target; try solve [right; intros (s' & [=] & _)].
      destruct (active_connections st !! s) as [wt|] eqn:Hs.
      - left. by exists s, wt.
      - right. by apply absent_not_registered. }
    destruct Hcases as [(s & wt & -> & Hs)|Hnot].
    + left. exists s, wt. split; [done|]. split; [done|]. by apply route_found.
    + right. left. split; [done|]. split; [done|]. by apply route_absent.
  - right. right. split; [done|]. by apply route_unhashable.
Qed.

(** What a write, alone or followed by a [print], comes to. *)
Lemma send_text_outcome w msg st :
  send_text w msg st = Return () (written [(w, msg)] st) ∨
  send_text w msg st = Raise (Exception "send_text") st.
Proof.
  destruct (decide (w ∈ broken st)).
  - right. by apply send_text_broken.
  - left. by apply send_text_open.
Qed.

Lemma send_print_outcome w msg pieces st :
  (send_text w msg;; print pieces) st = Return () (written [(w, msg)] st) ∨
  (send_text w msg;; print pieces) st = Raise (Exception "send_text") st ∨
  (forallb encodable pieces = false ∧
   (send_text w msg;; print pieces) st
   = Raise (Exception "UnicodeEncodeError") (written [(w, msg)] st)).
Proof.
  destruct (decide (w ∈ broken st)).
  - right. left. by apply send_print_broken.
  - destruct (forallb encodable pieces) eqn:Hp.
    + left. by apply send_print_open.
    + right. right. split; [done|]. by apply send_print_unencodable.
Qed.

Lemma turn_outcome_unchanged w r st (u : unit) : turn_outcome w r st (Return u st).
Proof. exists []. rewrite written_nil. split; [done | simpl; lia]. Qed.

Lemma turn_outcome_one w r st (u : unit) frame :
  turn_outcome w r st (Return u (written [frame] st)).
Proof. exists [frame]. split; [done | simpl; lia]. Qed.

Lemma turn_outcome_send w r st wt msg :
  turn_outcome w r st (send_text wt msg st).
Proof.
  destruct (send_text_outcome wt msg st) as [-> | ->];
    [apply turn_outcome_one | by left].
Qed.

Lemma turn_outcome_send_print w r st wt msg pieces :
  forallb encodable pieces = true →
  turn_outcome w r st ((send_text wt msg;; print pieces) st).
Proof.
  intros Hp.
  destruct (send_print_outcome wt msg pieces st) as [-> | [-> | [Hp' _]]];
    [apply turn_outcome_one | by left | congruence].
Qed.

Lemma loop_body_outcome w p r st : turn_outcome w r st (loop_body w p r st).
Proof.
  destruct r as [e|[v|]]; [by left| |by left].
  destruct v as [| | | | | | |items];
    try (rewrite loop_body_not_dict by (intros; discriminate); by left).
  destruct (eq_str (dict_get items "type") "register") eqn:Hreg.
  { apply eq_str_true in Hreg. rewrite loop_body_register by done.
    by apply turn_outcome_send_print. }
  destruct (directed_type (dict_get items "type")) eqn:Hdir.
  2:{ rewrite loop_body_other by done. apply turn_outcome_unchanged. }
  destruct (directed_type_cases _ Hdir) as [Hty|[Hty|[Hty|[Hty|Hty]]]].
  - rewrite loop_body_connect by done.
    destruct (route_cases (dict_get items "target")
                (λ target_ws,
                   send_text target_ws (notification "connection-request" p);;
                   print [PyStr "Forwarded connection request from "; PyStr p;
                          PyStr " to "; dict_get items "target"])
                (send_text w (peer_unavailable (dict_get items "target"));;
                 print [PyStr "Peer "; dict_get items "target"; PyStr " not found"])
                st)
      as [(s & wt & Htg & _ & ->)|[(_ & _ & ->)|(_ & ->)]]; [| |by left].
    + apply turn_outcome_send_print. by rewrite Htg.
    + destruct (send_print_outcome w (peer_unavailable (dict_get items "target"))
                  [PyStr "Peer "; dict_get items "target"; PyStr " not found"] st)
        as [-> | [-> | [Hp ->]]]; [apply turn_outcome_one | by left |].
      right. exists items. repeat split; [done|].
      simpl in Hp. by rewrite andb_true_r in Hp.
  - rewrite loop_body_offer by done.
    destruct (route_cases (dict_get items "target")
                (λ target_ws,
                   send_text target_ws
                     (PyDict [("type", PyStr "offer"); ("from", PyStr p);
                              ("offer", dict_get items "offer")]);;
                   print [PyStr "Forwarded offer from "; PyStr p; PyStr " to ";
                          dict_get items "target"])
                (send_text w (peer_unavailable (dict_get items "target"))) st)
      as [(s & wt & Htg & _ & ->)|[(_ & _ & ->)|(_ & ->)]]; [| |by left].
    + apply turn_outcome_send_print. by rewrite Htg.
    + apply turn_outcome_send.
  - rewrite loop_body_answer by done.
    destruct (route_cases (dict_get items "target")
                (λ target_ws,
                   send_text target_ws
                     (PyDict [("type", PyStr "answer"); ("from", PyStr p);
                              ("answer", dict_get items "answer")]);;
                   print [PyStr "Forwarded answer from "; PyStr p; PyStr " to ";
                          dict_get items "target"])
                (send_text w (peer_unavailable (dict_get items "target"))) st)
      as [(s & wt & Htg & _ & ->)|[(_ & _ & ->)|(_ & ->)]]; [| |by left].
    + apply turn_outcome_send_print. by rewrite Htg.
    + apply turn_outcome_send.
  - rewrite loop_body_ice_candidate by done.
    destruct (route_cases (dict_get items "target")
                (λ target_ws,
                   send_text target_ws
                     (PyDict [("type", PyStr "ice-candidate"); ("from", PyStr p);
                              ("candidate", dict_get items "candidate")]))
                (send_text w (peer_unavailable (dict_get items "target"))) st)
      as [(s & wt & Htg & _ & ->)|[(_ & _ & ->)|(_ & ->)]]; [| |by left];
      apply turn_outcome_send.
  - rewrite loop_body_disconnect by done.
    destruct (route_cases (dict_get items "target")
                (λ target_ws,
                   send_text target_ws (notification "peer-disconnected" p))
                (mret ()) st)
      as [(s & wt & Htg & _ & ->)|[(_ & _ & ->)|(_ & ->)]]; [| |by left].
    + apply turn_outcome_send.
    + apply turn_outcome_unchanged.
Qed.
(** X4. A message, whatever it holds, makes the coroutine write at most
    one frame.  Either the coroutine then waits in its loop again and
    nothing else has changed, or its loop has ended and exactly its key is
    deleted from both dictionaries; a loop that ends has written nothing,
    but for the reply to a [connect] whose unregistered target cannot be
    printed. *)
Theorem receive_writes_at_most_one_frame (st st' : state) (w : WebSocket)
    (p : string) (r : received) :
  handlers st !! w = Some (p, OPEN) →
  step st (Receive w r) = Some st' →
  ∃ new, wire st' = (wire st ++ new)%list ∧
    (List.length new ≤ 1)%nat ∧
    broken st' = broken st ∧
    ((handlers st' !! w = Some (p, OPEN) ∧ st' = written new st) ∨
     (handlers st' !! w = Some (p, CLOSED) ∧
      closes w p r st ∧
      active_connections st' = delete p (active_connections st) ∧
      peer_registry st' = delete p (peer_registry st) ∧
      (new = [] ∨
       ∃ items, r = Text (Some (PyDict items)) ∧
         dict_get items "type" = PyStr "connect" ∧
         encodable (dict_get items "target") = false ∧
         new = [(w, peer_unavailable (dict_get items "target"))]))).
Proof.
  intros Hopen Hstep. rewrite (step_receive _ _ _ _ Hopen) in Hstep.
  injection Hstep as <-.
  pose proof (loop_body_outcome w p r st) as Hout.
  destruct (loop_body w p r st) as [[] st1|e st1] eqn:Hbody; simpl in Hout.
  - destruct Hout as (new & -> & Hlen). exists new.
    rewrite (resume_return _ _ _ _ _ Hbody).
    split; [done|]. split; [done|]. split; [done|]. left. by split.
  - rewrite (resume_raise _ _ _ _ _ _ Hbody).
    assert (Hcl : closes w p r st) by (by exists e, st1).
    destruct Hout as [->|(items & Hr & Hty & Henc & ->)].
    + exists []. simpl. rewrite (right_id_L [] (++)), lookup_insert_eq.
      split; [done|]. split; [lia|]. split; [done|].
      right. repeat (split; [done|]). by left.
    + exists [(w, peer_unavailable (dict_get items "target"))]. simpl.
      rewrite lookup_insert_eq. split; [done|]. split; [lia|]. split; [done|].
      right. repeat (split; [done|]). right. by exists items.
Qed.

Lemma receive_writes_at_most_one_frame_witness :
  ∃ new,
    wire (websocket_endpoint_resume 1 "alice"
            (Text (Some (PyDict [("type", PyStr "connect");
                                 ("target", PyStrSurrogate [] 0 [])])))
            alice_alone)
      = (wire alice_alone ++ new)%list ∧
    (List.length new ≤ 1)%nat ∧
    broken (websocket_endpoint_resume 1 "alice"
              (Text (Some (PyDict [("type", PyStr "connect");
                                   ("target", PyStrSurrogate [] 0 [])])))
              alice_alone)
      = broken alice_alone ∧
    ((handlers (websocket_endpoint_resume 1 "alice"
                  (Text (Some (PyDict [("type", PyStr "connect");
                                       ("target", PyStrSurrogate [] 0 [])])))
                  alice_alone) !! 1 = Some ("alice", OPEN) ∧
      websocket_endpoint_resume 1 "alice"
        (Text (Some (PyDict [("type", PyStr "connect");
                             ("target", PyStrSurrogate [] 0 [])])))
        alice_alone = written new alice_alone) ∨
     (handlers (websocket_endpoint_resume 1 "alice"
                  (Text (Some (PyDict [("type", PyStr "connect");
                                       ("target", PyStrSurrogate [] 0 [])])))
                  alice_alone) !! 1 = Some ("alice", CLOSED) ∧
      closes 1 "alice"
        (Text (Some (PyDict [("type", PyStr "connect");
                             ("target", PyStrSurrogate [] 0 [])])))
        alice_alone ∧
      active_connections
        (websocket_endpoint_resume 1 "alice"
           (Text (Some (PyDict [("type", PyStr "connect");
                                ("target", PyStrSurrogate [] 0 [])])))
           alice_alone)
        = delete "alice" (active_connections alice_alone) ∧
      peer_registry
        (websocket_endpoint_resume 1 "alice"
           (Text (Some (PyDict [("type", PyStr "connect");
                                ("target", PyStrSurrogate [] 0 [])])))
           alice_alone)
        = delete "alice" (peer_registry alice_alone) ∧
      (new = [] ∨
       ∃ items,
         Text (Some (PyDict [("type", PyStr "connect");
                             ("target", PyStrSurrogate [] 0 [])]))
           = Text (Some (PyDict items)) ∧
         dict_get items "type" = PyStr "connect" ∧
         encodable (dict_get items "target") = false ∧
         new = [(1, peer_unavailable (dict_get items "target"))]))).
Proof.
  apply (receive_writes_at_most_one_frame alice_alone _ 1 "alice").
  - vm_compute. reflexivity.
  - reflexivity.
Defined.

(** X5. Nothing a peer sends, and no way its loop ends, touches the entry
    of a peer with another identifier or the coroutine of another channel:
    a resumption of the coroutine of [p] leaves every other key of both
    dictionaries, every other coroutine and the set of broken channels as
    they were. *)
Theorem other_peers_untouched (st st' : state) (w : WebSocket) (p : string)
    (r : received) :
  handlers st !! w = Some (p, OPEN) →
  step st (Receive w r) = Some st' →
  (∀ q, q ≠ p →
     active_connections st' !! q = active_connections st !! q ∧
     peer_registry st' !! q = peer_registry st !! q) ∧
  (∀ w', w' ≠ w → handlers st' !! w' = handlers st !! w') ∧
  broken st' = broken st.
Proof.
  intros Hopen Hstep. rewrite (step_receive _ _ _ _ Hopen) in Hstep.
  injection Hstep as <-.
  destruct (resume_cases w p r st) as [(new & _ & ->)|(e & new & _ & ->)]; simpl.
  - done.
  - split; [|split; [|done]].
    + intros q Hq. by rewrite !lookup_delete_ne.
    + intros w' Hw'. by rewrite lookup_insert_ne.
Qed.

Lemma other_peers_untouched_witness :
  (∀ q, q ≠ "bob" →
     active_connections
       (websocket_endpoint_resume 2 "bob" (Raises WebSocketDisconnect) two_peers) !! q
       = active_connections two_peers !! q ∧
     peer_registry
       (websocket_endpoint_resume 2 "bob" (Raises WebSocketDisconnect) two_peers) !! q
       = peer_registry two_peers !! q) ∧
  (∀ w', w' ≠ 2 →
     handlers
       (websocket_endpoint_resume 2 "bob" (Raises WebSocketDisconnect) two_peers) !! w'
       = handlers two_peers !! w') ∧
  broken (websocket_endpoint_resume 2 "bob" (Raises WebSocketDisconnect) two_peers)
    = broken two_peers.
Proof.
  apply (other_peers_untouched two_peers _ 2 "bob" (Raises WebSocketDisconnect)).
  - vm_compute. reflexivity.
  - reflexivity.
Defined.

(** ** The two dictionaries *)

(** X1. In every reachable state the two dictionaries have the same keys
    and hold the same channel under each key, the channel registered under
    a key belongs to a coroutine of that [peer_id] that waits in its loop,
    and no channel is registered under two keys. *)
Theorem registry_dictionaries_agree (st : state) :
  reachable st →
  dom (peer_registry st) = dom (active_connections st) ∧
  (∀ p w, active_connections st !! p = Some w ↔
          peer_registry st !! p = Some {| ws := w; connected_to := None |}) ∧
  (∀ p w, active_connections st !! p = Some w →
          handlers st !! w = Some (p, OPEN)) ∧
  (∀ p q w, active_connections st !! p = Some w →
            active_connections st !! q = Some w → p = q).
Proof.
  intros Hreach. destruct (reachable_consistent st Hreach) as [Hreg Hh].
  split; [|split; [|split]].
  - apply set_eq. intros p. rewrite !elem_of_dom, Hreg. apply fmap_is_Some.
  - intros p w. rewrite Hreg. split.
    + by intros ->.
    + destruct (active_connections st !! p); [|done]. by intros [= ->].
  - exact Hh.
  - intros p q w Hp Hq. apply Hh in Hp. apply Hh in Hq. congruence.
Qed.

Lemma registry_dictionaries_agree_witness :
  dom (peer_registry two_peers) = dom (active_connections two_peers) ∧
  (∀ p w, active_connections two_peers !! p = Some w ↔
          peer_registry two_peers !! p = Some {| ws := w; connected_to := None |}) ∧
  (∀ p w, active_connections two_peers !! p = Some w →
          handlers two_peers !! w = Some (p, OPEN)) ∧
  (∀ p q w, active_connections two_peers !! p = Some w →
            active_connections two_peers !! q = Some w → p = q).
Proof.
  apply (registry_dictionaries_agree two_peers).
  exists [Connect 1 "alice"; Connect 2 "bob"]. vm_compute. reflexivity.
Defined.

(** X10. The values stored in [peer_registry] are never read: from two
    states that differ only in those values, the same event leads to two
    states that again differ only in those values, with the same frames on
    the wire, the same [active_connections] and the same coroutines. *)
Theorem registry_values_never_read (st1 st2 st1' : state) (e : event) :
  same_but_registry_values st1 st2 →
  step st1 e = Some st1' →
  ∃ st2', step st2 e = Some st2' ∧ same_but_registry_values st1' st2'.
Proof.
  intros Hsame Hstep.
  pose proof (step_ignores_registry_values st1 st2 e Hsame) as H.
  rewrite Hstep in H. destruct (step st2 e) as [st2'|]; [|done].
  by exists st2'.
Qed.

Lemma registry_values_never_read_witness :
  ∃ st2', step (set_peer_registry
                  (fmap (λ _, {| ws := 9; connected_to := Some "carol" |}))
                  two_peers)
               (Receive 1 (Text (Some msg_offer_bob))) = Some st2' ∧
    same_but_registry_values
      (written [(2, forwarded "alice" msg_offer_bob)] two_peers) st2'.
Proof.
  apply (registry_values_never_read two_peers _ _
           (Receive 1 (Text (Some msg_offer_bob)))).
  - repeat split.
  - vm_compute. reflexivity.
Defined.

(** X11. The clean-up is idempotent, does nothing when the key is in
    neither dictionary, and never touches another key. *)
Theorem cleanup_idempotent (p : string) (st : state) :
  cleanup p (cleanup p st) = cleanup p st ∧
  (active_connections st !! p = None → peer_registry st !! p = None →
   cleanup p st = st) ∧
  (∀ q, q ≠ p →
     active_connections (cleanup p st) !! q = active_connections st !! q ∧
     peer_registry (cleanup p st) !! q = peer_registry st !! q).
Proof.
  rewrite !cleanup_deletes. destruct st as [ac reg h b l].
  unfold set_peer_registry, set_active_connections. simpl.
  split; [|split].
  - by rewrite !delete_delete_eq.
  - intros Hac Hreg. by rewrite (delete_id _ _ Hac), (delete_id _ _ Hreg).
  - intros q Hq. by rewrite !lookup_delete_ne.
Qed.

Lemma cleanup_idempotent_witness :
  cleanup "bob" alice_alone = alice_alone.
Proof.
  apply (proj1 (proj2 (cleanup_idempotent "bob" alice_alone))).
  - vm_compute. reflexivity.
  - vm_compute. reflexivity.
Defined.

(** X8. A connection under an identifier that is in neither dictionary,
    followed by the end of its loop, puts both dictionaries back as they
    were.  Nothing was written meanwhile, but for the one reply that
    precedes a [print] that raises: a [peer-unavailable] on the
    connection's own channel, naming a target that cannot be encoded. *)
Theorem connect_then_close_restores (st : state) (w : WebSocket) (p : string)
    (r : received) :
  handlers st !! w = None →
  active_connections st !! p = None →
  peer_registry st !! p = None →
  closes w p r (websocket_endpoint_accept w p st) →
  ∃ st' new, run st [Connect w p; Receive w r] = Some st' ∧
    active_connections st' = active_connections st ∧
    peer_registry st' = peer_registry st ∧
    broken st' = broken st ∧
    handlers st' = <[w := (p, CLOSED)]> (handlers st) ∧
    wire st' = (wire st ++ new)%list ∧
    (new = [] ∨
     ∃ target, encodable target = false ∧ new = [(w, peer_unavailable target)]).
Proof.
  intros Hnew Hac Hreg (e & st1 & Hraise).
  pose proof (loop_body_outcome w p r (websocket_endpoint_accept w p st)) as Hout.
  rewrite Hraise in Hout. simpl in Hout.
  assert (Hrun : run st [Connect w p; Receive w r]
                 = Some (websocket_endpoint_resume w p r
                           (websocket_endpoint_accept w p st))).
  { simpl. rewrite Hnew. simpl. by rewrite lookup_insert_eq. }
  rewrite (resume_raise _ _ _ _ _ _ Hraise) in Hrun.
  destruct Hout as [->|(items & _ & _ & Henc & ->)]; eexists.
  - exists []. split; [exact Hrun|]. simpl.
    rewrite !delete_insert_id by done.
    rewrite insert_insert_eq, (right_id_L [] (++)).
    repeat (split; [done|]). by left.
  - exists [(w, peer_unavailable (dict_get items "target"))].
    split; [exact Hrun|]. simpl.
    rewrite !delete_insert_id by done. rewrite insert_insert_eq.
    repeat (split; [done|]). right. by eexists.
Qed.

Lemma connect_then_close_restores_witness :
  ∃ st' new,
    run alice_alone
      [Connect 2 "bob";
       Receive 2 (Text (Some (PyDict [("type", PyStr "connect");
                                      ("target", PyStrSurrogate [] 0 [])])))]
      = Some st' ∧
    active_connections st' = active_connections alice_alone ∧
    peer_registry st' = peer_registry alice_alone ∧
    broken st' = broken alice_alone ∧
    handlers st' = <[2 := ("bob", CLOSED)]> (handlers alice_alone) ∧
    wire st' = (wire alice_alone ++ new)%list ∧
    (new = [] ∨
     ∃ target, encodable target = false ∧ new = [(2, peer_unavailable target)]).
Proof.
  apply (connect_then_close_restores alice_alone 2 "bob").
  - vm_compute. reflexivity.
  - vm_compute. reflexivity.
  - vm_compute. reflexivity.
  - eexists _, _. reflexivity.
Defined.

(** ** The branches the claims leave out *)

(** X2. A [connect] or [disconnect] envelope addressed to a registered peer
    whose channel takes the write is forwarded as a two-key envelope,
    [connection-request] or [peer-disconnected], tagged with the sender's
    [peer_id]: whatever else the message holds is dropped, the sender gets
    no reply, and a [disconnect] unregisters nobody: both dictionaries and
    every coroutine, the sender's included, are as before. *)
Theorem notification_forwarded (st : state) (w wt : WebSocket) (p s : string)
    (items : list (string * value)) :
  handlers st !! w = Some (p, OPEN) →
  dict_get items "target" = PyStr s →
  active_connections st !! s = Some wt →
  wt ∉ broken st →
  (dict_get items "type" = PyStr "connect" →
   step st (Receive w (Text (Some (PyDict items))))
   = Some (written [(wt, notification "connection-request" p)] st)) ∧
  (dict_get items "type" = PyStr "disconnect" →
   step st (Receive w (Text (Some (PyDict items))))
   = Some (written [(wt, notification "peer-disconnected" p)] st)) ∧
  (∀ new,
     active_connections (written new st) = active_connections st ∧
     peer_registry (written new st) = peer_registry st ∧
     handlers (written new st) = handlers st).
Proof.
  intros Hopen Htarget Hs Hwt. rewrite (step_receive _ _ _ _ Hopen).
  split; [|split]; [intros Ht | intros Ht | done]; f_equal; apply resume_return.
  - rewrite loop_body_connect by done.
    rewrite Htarget, (route_found s wt) by done. by apply send_print_open.
  - rewrite loop_body_disconnect by done.
    rewrite Htarget, (route_found s wt) by done. by apply send_text_open.
Qed.

Lemma notification_forwarded_witness :
  (dict_get [("type", PyStr "disconnect"); ("target", PyStr "bob");
             ("reason", PyStr "bye")] "type" = PyStr "connect" →
   step two_peers (Receive 1 (Text (Some (PyDict
     [("type", PyStr "disconnect"); ("target", PyStr "bob");
      ("reason", PyStr "bye")]))))
   = Some (written [(2, notification "connection-request" "alice")] two_peers)) ∧
  (dict_get [("type", PyStr "disconnect"); ("target", PyStr "bob");
             ("reason", PyStr "bye")] "type" = PyStr "disconnect" →
   step two_peers (Receive 1 (Text (Some (PyDict
     [("type", PyStr "disconnect"); ("target", PyStr "bob");
      ("reason", PyStr "bye")]))))
   = Some (written [(2, notification "peer-disconnected" "alice")] two_peers)) ∧
  (∀ new,
     active_connections (written new two_peers) = active_connections two_peers ∧
     peer_registry (written new two_peers) = peer_registry two_peers ∧
     handlers (written new two_peers) = handlers two_peers).
Proof.
  apply (notification_forwarded two_peers 1 2 "alice" "bob").
  - vm_compute. reflexivity.
  - reflexivity.
  - vm_compute. reflexivity.
  - simpl. apply not_elem_of_empty.
Defined.

(** X3. A JSON object whose [type] is none of the six literals (another
    string, a string in another case, a number, a list, [null], or no
    [type] at all) is ignored without a reply whatever its [target] is,
    an unhashable one included: the state is as before and the coroutine
    waits for the next frame. *)
Theorem unknown_type_ignored (st : state) (w : WebSocket) (p : string)
    (items : list (string * value)) :
  handlers st !! w = Some (p, OPEN) →
  (∀ s, s ∈ known_types → dict_get items "type" ≠ PyStr s) →
  step st (Receive w (Text (Some (PyDict items)))) = Some st.
Proof.
  intros Hopen Hunknown. rewrite (step_receive _ _ _ _ Hopen). f_equal.
  apply resume_return.
  assert (Hf : ∀ s, s ∈ known_types → eq_str (dict_get items "type") s = false).
  { intros s Hs. apply eq_str_false. by apply Hunknown. }
  apply loop_body_other.
  - apply Hf. set_solver.
  - unfold directed_type, answered_type, signalling_type.
    rewrite !Hf; [done|unfold known_types; set_solver..].
Qed.

Lemma unknown_type_ignored_witness :
  step alice_alone (Receive 1 (Text (Some (PyDict
    [("type", PyStr "Offer"); ("target", PyList [])])))) = Some alice_alone.
Proof.
  apply (unknown_type_ignored alice_alone 1 "alice").
  - vm_compute. reflexivity.
  - intros s Hs. simpl. intros [= <-]. vm_compute in Hs.
    repeat (apply elem_of_cons in Hs as [Hs|Hs]; [discriminate|]).
    by apply elem_of_nil in Hs.
Defined.

(** ** Turns that end the connection *)

Lemma closed_state_facts w p st :
  let st' := set_handlers (<[w := (p, CLOSED)]>)
               (set_peer_registry (delete p)
                  (set_active_connections (delete p) st)) in
  handlers st' !! w = Some (p, CLOSED) ∧
  wire st' = wire st ∧
  active_connections st' !! p = None ∧
  peer_registry st' !! p = None.
Proof. simpl. by rewrite lookup_insert_eq, !lookup_delete_eq. Qed.

(** X6. Forwarding is not fire-and-forget: when the target of a directed
    envelope is registered on a channel whose write raises, the exception
    ends the loop of the sender.  Nothing is written, the sender's
    coroutine returns and the sender's key is deleted from both
    dictionaries, while the target, if it is another peer, stays
    registered on its dead channel. *)
Theorem failed_write_closes_sender (st : state) (w wt : WebSocket)
    (p s : string) (items : list (string * value)) :
  handlers st !! w = Some (p, OPEN) →
  directed_type (dict_get items "type") = true →
  dict_get items "target" = PyStr s →
  active_connections st !! s = Some wt →
  wt ∈ broken st →
  ∃ st', step st (Receive w (Text (Some (PyDict items)))) = Some st' ∧
    handlers st' !! w = Some (p, CLOSED) ∧
    wire st' = wire st ∧
    active_connections st' !! p = None ∧
    peer_registry st' !! p = None ∧
    (s ≠ p → active_connections st' !! s = Some wt).
Proof.
  intros Hopen Ht Htarget Hs Hwt. eexists.
  rewrite (step_receive _ _ _ _ Hopen). split; [reflexivity|].
  assert (Hraise : loop_body w p (Text (Some (PyDict items))) st
                   = Raise (Exception "send_text") st).
  { destruct (directed_type_cases _ Ht) as [Hty|[Hty|[Hty|[Hty|Hty]]]];
      [ rewrite loop_body_connect by done
      | rewrite loop_body_offer by done
      | rewrite loop_body_answer by done
      | rewrite loop_body_ice_candidate by done
      | rewrite loop_body_disconnect by done ];
      rewrite Htarget, (route_found s wt) by done;
      first [by apply send_print_broken | by apply send_text_broken]. }
  rewrite (resume_raise _ _ _ _ _ _ Hraise).
  destruct (closed_state_facts w p st) as (H1 & H2 & H3 & H4).
  repeat (split; [done|]).
  intros Hne. simpl. by rewrite lookup_delete_ne.
Qed.

Lemma failed_write_closes_sender_witness :
  ∃ st', step (set_broken (λ b, {[2]} ∪ b) two_peers)
              (Receive 1 (Text (Some msg_offer_bob))) = Some st' ∧
    handlers st' !! 1 = Some ("alice", CLOSED) ∧
    wire st' = wire (set_broken (λ b, {[2]} ∪ b) two_peers) ∧
    active_connections st' !! "alice" = None ∧
    peer_registry st' !! "alice" = None ∧
    ("bob" ≠ "alice" → active_connections st' !! "bob" = Some 2).
Proof.
  apply (failed_write_closes_sender (set_broken (λ b, {[2]} ∪ b) two_peers)
           1 2 "alice" "bob"
           [("type", PyStr "offer"); ("target", PyStr "bob");
            ("offer", PyDict [("sdp", PyStr "X")])]).
  - vm_compute. reflexivity.
  - reflexivity.
  - reflexivity.
  - vm_compute. reflexivity.
  - simpl. set_solver.
Defined.

(** X7. A directed envelope whose [target] is a JSON array or object ends
    the connection of its sender: the membership test raises on the
    unhashable value, nothing is written, not even [peer-unavailable], the
    coroutine returns and its key is deleted from both dictionaries. *)
Theorem unhashable_target_ends_connection (st : state) (w : WebSocket)
    (p : string) (items : list (string * value)) :
  handlers st !! w = Some (p, OPEN) →
  directed_type (dict_get items "type") = true →
  hashable (dict_get items "target") = false →
  ∃ st', step st (Receive w (Text (Some (PyDict items)))) = Some st' ∧
    handlers st' !! w = Some (p, CLOSED) ∧
    wire st' = wire st ∧
    active_connections st' !! p = None ∧
    peer_registry st' !! p = None.
Proof.
  intros Hopen Ht Hh. eexists.
  rewrite (step_receive _ _ _ _ Hopen). split; [reflexivity|].
  rewrite (resume_raise _ _ _ _ _ _ (loop_body_unhashable w p items st Ht Hh)).
  apply closed_state_facts.
Qed.

Lemma unhashable_target_ends_connection_witness :
  ∃ st', step two_peers (Receive 1 (Text (Some (PyDict
           [("type", PyStr "connect"); ("target", PyDict [("id", PyStr "bob")])]))))
         = Some st' ∧
    handlers st' !! 1 = Some ("alice", CLOSED) ∧
    wire st' = wire two_peers ∧
    active_connections st' !! "alice" = None ∧
    peer_registry st' !! "alice" = None.
Proof.
  apply (unhashable_target_ends_connection two_peers 1 "alice").
  - vm_compute. reflexivity.
  - reflexivity.
  - reflexivity.
Defined.

(** X9. A signalling envelope that lacks its payload key is forwarded all
    the same, with [null] under the payload key; the forwarded envelope has
    the three keys [type], [from] and the payload key and no other, so the
    [target] and every other key of the message are dropped. *)
Theorem missing_payload_forwarded_as_null (st : state) (w wt : WebSocket)
    (p s : string) (items : list (string * value)) :
  handlers st !! w = Some (p, OPEN) →
  signalling_type (dict_get items "type") = true →
  dict_get items "target" = PyStr s →
  active_connections st !! s = Some wt →
  wt ∉ broken st →
  payload_field (dict_get items "type") ∉ items.*1 →
  step st (Receive w (Text (Some (PyDict items))))
  = Some (written
            [(wt, PyDict [("type", dict_get items "type"); ("from", PyStr p);
                          (payload_field (dict_get items "type"), PyNone)])] st).
Proof.
  intros Hopen Ht Htarget Hs Hwt Hmissing.
  rewrite (step_receive _ _ _ _ Hopen). f_equal. apply resume_return.
  rewrite (loop_body_forward _ _ _ _ _ _ Ht Htarget Hs Hwt).
  unfold forwarded. by rewrite (dict_get_missing _ _ Hmissing).
Qed.

Lemma missing_payload_forwarded_as_null_witness :
  step two_peers (Receive 1 (Text (Some (PyDict
    [("type", PyStr "answer"); ("target", PyStr "bob"); ("sdp", PyStr "X")]))))
  = Some (written
            [(2, PyDict [("type", PyStr "answer"); ("from", PyStr "alice");
                         ("answer", PyNone)])] two_peers).
Proof.
  apply (missing_payload_forwarded_as_null two_peers 1 2 "alice" "bob"
           [("type", PyStr "answer"); ("target", PyStr "bob"); ("sdp", PyStr "X")]).
  - vm_compute. reflexivity.
  - reflexivity.
  - reflexivity.
  - vm_compute. reflexivity.
  - simpl. apply not_elem_of_empty.
  - vm_compute. intros H.
    repeat (apply elem_of_cons in H as [H|H]; [discriminate|]).
    by apply elem_of_nil in H.
Defined.

(** X12. The [registered] reply does not say that the peer is in the
    registry.  A connected peer whose key has been deleted (its identifier
    was registered again and one of the two connections closed) still gets
    [registered] in answer to [register], and stays absent from both
    dictionaries, then and after any further events, until a new
    connection is opened under its identifier. *)
Theorem register_does_not_reregister (st : state) (w : WebSocket) (p : string)
    (items : list (string * value)) :
  handlers st !! w = Some (p, OPEN) →
  w ∉ broken st →
  active_connections st !! p = None →
  peer_registry st !! p = None →
  dict_get items "type" = PyStr "register" →
  ∃ st1, step st (Receive w (Text (Some (PyDict items)))) = Some st1 ∧
    wire st1 = (wire st ++ [(w, registered_reply p)])%list ∧
    ∀ evs st2, run st1 evs = Some st2 → (∀ w', Connect w' p ∉ evs) →
      active_connections st2 !! p = None ∧ peer_registry st2 !! p = None.
Proof.
  intros Hopen Hw Hac Hreg Ht.
  exists (written [(w, registered_reply p)] st).
  rewrite (step_receive _ _ _ _ Hopen). split; [|split; [done|]].
  - f_equal. apply resume_return. rewrite loop_body_register by done.
    by apply send_print_open.
  - intros evs st2 Hrun Hevs. by apply (run_absent evs _ st2 p Hrun).
Qed.

Lemma register_does_not_reregister_witness :
  ∃ st1, step (websocket_endpoint_resume 1 "alice" (Raises WebSocketDisconnect)
                 alice_twice)
              (Receive 2 (Text (Some msg_register))) = Some st1 ∧
    wire st1 = (wire (websocket_endpoint_resume 1 "alice"
                        (Raises WebSocketDisconnect) alice_twice)
                ++ [(2, registered_reply "alice")])%list ∧
    ∀ evs st2, run st1 evs = Some st2 → (∀ w', Connect w' "alice" ∉ evs) →
      active_connections st2 !! "alice" = None ∧
      peer_registry st2 !! "alice" = None.
Proof.
  apply (register_does_not_reregister
           (websocket_endpoint_resume 1 "alice" (Raises WebSocketDisconnect)
              alice_twice) 2 "alice" [("type", PyStr "register")]).
  - vm_compute. reflexivity.
  - simpl. apply not_elem_of_empty.
  - vm_compute. reflexivity.
  - vm_compute. reflexivity.
  - reflexivity.
Defined.

(** * Properties of [generate_cert.py] and of the index page *)

Lemma append_inj_r (base x y : string) : base ++ x = base ++ y → x = y.
Proof.
  induction base as [|c base IH]; simpl; intros H; [done|].
  injection H as H. auto.
Qed.

Lemma path_join_inj (base x y : string) :
  path_join base x = path_join base y → x = y.
Proof.
  unfold path_join. intros H. apply append_inj_r in H. by injection H.
Qed.

Lemma key_path_is_not_cert_path (base : string) :
  path_join base "cert.key" ≠ path_join base "cert.crt".
Proof. intros H. apply path_join_inj in H. discriminate. Qed.

Section GenerateCertProperties.
Context (private_bytes : private_key → string).
Context (public_bytes : certificate → string).

(** X13. When both paths can be opened for writing,
    [generate_self_signed_cert] returns, the two files hold the encodings
    of the generated key and of the certificate built from it, every other
    file is as before, and the start-up check of [server.py] run from the
    same directory then passes: the server is started. *)
Theorem generated_certificates_start_the_server (BASE_DIR : string)
    (key_material : nat) (serial now1 now2 : Z)
    (locked : gset string) (fs : gmap string string) :
  path_join BASE_DIR "cert.key" ∉ locked →
  path_join BASE_DIR "cert.crt" ∉ locked →
  ∃ fs' printed,
    generate_self_signed_cert private_bytes public_bytes BASE_DIR
      key_material serial now1 now2 locked fs = Generated fs' printed ∧
    fs' !! path_join BASE_DIR "cert.key"
      = Some (private_bytes (build_certificate key_material serial now1 now2).1) ∧
    fs' !! path_join BASE_DIR "cert.crt"
      = Some (public_bytes (build_certificate key_material serial now1 now2).2) ∧
    (∀ path, path ≠ path_join BASE_DIR "cert.key" →
             path ≠ path_join BASE_DIR "cert.crt" → fs' !! path = fs !! path) ∧
    main BASE_DIR (dom fs')
      = UvicornRun "0.0.0.0" 10500
          (path_join BASE_DIR "cert.key") (path_join BASE_DIR "cert.crt").
Proof.
  intros Hkey Hcert. unfold generate_self_signed_cert. simpl.
  rewrite (bool_decide_eq_false_2 _ Hkey), (bool_decide_eq_false_2 _ Hcert).
  eexists _, _. split; [reflexivity|].
  pose proof (key_path_is_not_cert_path BASE_DIR) as Hne.
  split; [by rewrite lookup_insert_ne, lookup_insert_eq|].
  split; [by rewrite lookup_insert_eq|].
  split; [intros path H1 H2; by rewrite !lookup_insert_ne|].
  unfold main. rewrite !bool_decide_eq_true_2; [done|..].
  - apply elem_of_dom. by rewrite lookup_insert_eq.
  - apply elem_of_dom. by rewrite lookup_insert_ne, lookup_insert_eq.
Qed.

(** X14. The key is written before the certificate.  When the certificate
    cannot be opened for writing and did not exist, the run fails with the
    key file already written and the certificate still missing, and the
    start-up check of [server.py] then exits with status 1. *)
Theorem half_generated_does_not_start (BASE_DIR : string)
    (key_material : nat) (serial now1 now2 : Z)
    (locked : gset string) (fs : gmap string string) :
  path_join BASE_DIR "cert.key" ∉ locked →
  path_join BASE_DIR "cert.crt" ∈ locked →
  fs !! path_join BASE_DIR "cert.crt" = None →
  ∃ fs' printed,
    generate_self_signed_cert private_bytes public_bytes BASE_DIR
      key_material serial now1 now2 locked fs
      = OpenFailed (path_join BASE_DIR "cert.crt") fs' printed ∧
    fs' !! path_join BASE_DIR "cert.key"
      = Some (private_bytes (build_certificate key_material serial now1 now2).1) ∧
    fs' !! path_join BASE_DIR "cert.crt" = None ∧
    ∃ diagnostic, main BASE_DIR (dom fs') = Exit 1 diagnostic.
Proof.
  intros Hkey Hcert Hnone. unfold generate_self_signed_cert. simpl.
  rewrite (bool_decide_eq_false_2 _ Hkey), (bool_decide_eq_true_2 _ Hcert).
  eexists _, _. split; [reflexivity|].
  pose proof (key_path_is_not_cert_path BASE_DIR) as Hne.
  assert (Hstill : (<[path_join BASE_DIR "cert.key" :=
                       private_bytes {| public_exponent := 65537;
                                        key_size := 2048;
                                        material := key_material |}]> fs)
                   !! path_join BASE_DIR "cert.crt" = None)
    by (by rewrite lookup_insert_ne).
  split; [by rewrite lookup_insert_eq|]. split; [exact Hstill|].
  unfold main. eexists.
  rewrite (bool_decide_eq_false_2
             (path_join BASE_DIR "cert.crt" ∈ dom _)).
  - rewrite orb_true_r. reflexivity.
  - by apply not_elem_of_dom.
Qed.
End GenerateCertProperties.

Lemma generated_certificates_start_the_server_witness :
  ∃ fs' printed,
    generate_self_signed_cert (λ _, "KEY") (λ _, "CERT") "/srv" 7 1 100 101 ∅ ∅
      = Generated fs' printed ∧
    fs' !! path_join "/srv" "cert.key" = Some "KEY" ∧
    fs' !! path_join "/srv" "cert.crt" = Some "CERT" ∧
    (∀ path, path ≠ path_join "/srv" "cert.key" →
             path ≠ path_join "/srv" "cert.crt" →
             fs' !! path = (∅ : gmap string string) !! path) ∧
    main "/srv" (dom fs')
      = UvicornRun "0.0.0.0" 10500
          (path_join "/srv" "cert.key") (path_join "/srv" "cert.crt").
Proof.
  apply (generated_certificates_start_the_server (λ _, "KEY") (λ _, "CERT")
           "/srv" 7 1 100 101 ∅ ∅).
  - apply not_elem_of_empty.
  - apply not_elem_of_empty.
Defined.

Lemma half_generated_does_not_start_witness :
  ∃ fs' printed,
    generate_self_signed_cert (λ _, "KEY") (λ _, "CERT") "/srv" 7 1 100 101
      {[ "/srv/cert.crt" ]} ∅
      = OpenFailed (path_join "/srv" "cert.crt") fs' printed ∧
    fs' !! path_join "/srv" "cert.key" = Some "KEY" ∧
    fs' !! path_join "/srv" "cert.crt" = None ∧
    ∃ diagnostic, main "/srv" (dom fs') = Exit 1 diagnostic.
Proof.
  apply (half_generated_does_not_start (λ _, "KEY") (λ _, "CERT")
           "/srv" 7 1 100 101 {[ "/srv/cert.crt" ]} ∅).
  - vm_compute. intros H. discriminate.
  - vm_compute. reflexivity.
  - vm_compute. reflexivity.
Defined.

(** X16. The index page is served from [index-local.html] under
    [BASE_DIR] and from nowhere else: when that file exists the response is
    that file as [text/html], otherwise it is the 404 page, whatever other
    files exist, [index.html] included. *)
Theorem index_page_is_index_local (BASE_DIR : string) (files : gset string) :
  (path_join BASE_DIR "index-local.html" ∈ files →
   serve_index BASE_DIR files
   = FileResponse (path_join BASE_DIR "index-local.html") "text/html") ∧
  (path_join BASE_DIR "index-local.html" ∉ files →
   serve_index BASE_DIR files
   = HTMLResponse "<h1>index.html not found</h1>" 404 ∧
   serve_index BASE_DIR ({[ path_join BASE_DIR "index.html" ]} ∪ files)
   = HTMLResponse "<h1>index.html not found</h1>" 404).
Proof.
  unfold serve_index. split.
  - intros H. by rewrite (bool_decide_eq_true_2 _ H).
  - intros H. rewrite (bool_decide_eq_false_2 _ H). split; [done|].
    rewrite bool_decide_eq_false_2; [done|].
    intros Hin. apply elem_of_union in Hin as [Hin|Hin]; [|done].
    apply elem_of_singleton in Hin. apply path_join_inj in Hin. discriminate.
Qed.

Lemma index_page_is_index_local_witness :
  serve_index "/srv" {[ "/srv/index-local.html" ]}
    = FileResponse "/srv/index-local.html" "text/html" ∧
  serve_index "/srv" ({[ path_join "/srv" "index.html" ]} ∪ ∅)
    = HTMLResponse "<h1>index.html not found</h1>" 404.
Proof.
  split.
  - apply (proj1 (index_page_is_index_local "/srv" {[ "/srv/index-local.html" ]})).
    set_solver.
  - apply (proj2 (index_page_is_index_local "/srv" ∅)).
    apply not_elem_of_empty.
Defined.
